(** * cloud-init-to-bash: a shallow embedding of the converter

    The converter reads a cloud-init YAML file as a sequence of lines,
    extracts four sections with a hand-written scanner
    ([parse_cloud_init]) and prints an equivalent shell script
    ([generate_bash]).

    Python strings are embedded as [string]; a character is a code
    point below 256.  Lists of lines are [list string].  The scanner is
    an imperative loop nest over one line index; every loop becomes a
    function on the scanner state, recursive on a fuel argument, and
    every indexing operation of the source that can raise [IndexError]
    is a fallible operation of the embedding. *)

From Stdlib Require Import Strings.String Strings.Ascii.
From Stdlib Require Import Lists.List Arith.Arith Arith.PeanoNat Bool.Bool Lia.
Import ListNotations.

Local Open Scope list_scope.
Local Open Scope string_scope.
Local Open Scope nat_scope.

(** [++] is string concatenation throughout; [+++] is list
    concatenation. *)
Infix "+++" := (@List.app _) (at level 60, right associativity).

(** ** Python string primitives *)

Module PyStr.

(** The newline and the double quote, as one-character strings. *)
Definition nl : string := String (ascii_of_nat 10) EmptyString.
Definition dquote : ascii := ascii_of_nat 34.

(** [c.isspace()] on the code points below 256. *)
Definition isspace (c : ascii) : bool :=
  let n := nat_of_ascii c in
  ((9 <=? n) && (n <=? 13)) || ((28 <=? n) && (n <=? 32))
  || (n =? 133) || (n =? 160).

(** [bool(s)]: a string is truthy when it is not empty. *)
Definition truthy (s : string) : bool :=
  match s with EmptyString => false | String _ _ => true end.

(** [s.startswith(p)]. *)
Fixpoint startswith (s p : string) {struct p} : bool :=
  match p, s with
  | EmptyString, _ => true
  | String _ _, EmptyString => false
  | String b p', String a s' => Ascii.eqb a b && startswith s' p'
  end.

(** [sub in s]. *)
Fixpoint contains (s sub : string) : bool :=
  startswith s sub ||
  match s with
  | EmptyString => false
  | String _ s' => contains s' sub
  end.

Definition rev_string (s : string) : string :=
  string_of_list_ascii (rev (list_ascii_of_string s)).

(** [s.endswith(p)]. *)
Definition endswith (s p : string) : bool :=
  startswith (rev_string s) (rev_string p).

(** [s[n:]] for a non-negative [n]. *)
Fixpoint drop (n : nat) (s : string) : string :=
  match n, s with
  | O, _ => s
  | S _, EmptyString => EmptyString
  | S n', String _ s' => drop n' s'
  end.

(** [s[:-1]]. *)
Fixpoint drop_last (s : string) : string :=
  match s with
  | EmptyString => EmptyString
  | String c s' =>
      match s' with
      | EmptyString => EmptyString
      | String _ _ => String c (drop_last s')
      end
  end.

(** [s[1:-1]]: the characters at the positions 1 .. len-2. *)
Definition slice_1_m1 (s : string) : string := drop_last (drop 1 s).

(** [" " * n]. *)
Fixpoint spaces (n : nat) : string :=
  match n with
  | O => EmptyString
  | S n' => String " "%char (spaces n')
  end.

(** [s.lstrip(chars)], [s.rstrip(chars)] and [s.strip(chars)], the
    character set given as a predicate. *)
Fixpoint lstrip_by (p : ascii -> bool) (s : string) : string :=
  match s with
  | EmptyString => EmptyString
  | String c s' => if p c then lstrip_by p s' else s
  end.

Fixpoint rstrip_by (p : ascii -> bool) (s : string) : string :=
  match s with
  | EmptyString => EmptyString
  | String c s' =>
      match rstrip_by p s' with
      | EmptyString => if p c then EmptyString else String c EmptyString
      | r => String c r
      end
  end.

Definition strip_by (p : ascii -> bool) (s : string) : string :=
  rstrip_by p (lstrip_by p s).

Definition lstrip : string -> string := lstrip_by isspace.
Definition rstrip : string -> string := rstrip_by isspace.
Definition strip : string -> string := strip_by isspace.

(** [sep.join(l)]. *)
Fixpoint join (sep : string) (l : list string) : string :=
  match l with
  | [] => EmptyString
  | [x] => x
  | x :: l' => x ++ sep ++ join sep l'
  end.

(** [s.replace(old, new)]: every non-overlapping occurrence of [old],
    scanning from the left.  [skip] counts the characters of a matched
    occurrence still to be passed over. *)
Fixpoint replace_from (old new : string) (skip : nat) (s : string) : string :=
  match s with
  | EmptyString => EmptyString
  | String c s' =>
      match skip with
      | S k => replace_from old new k s'
      | O =>
          if startswith s old
          then new ++ replace_from old new (String.length old - 1) s'
          else String c (replace_from old new 0 s')
      end
  end.

Fixpoint intersperse (new s : string) : string :=
  match s with
  | EmptyString => new
  | String c s' => new ++ String c (intersperse new s')
  end.

Definition replace (old new s : string) : string :=
  match old with
  | EmptyString => intersperse new s
  | String _ _ => replace_from old new 0 s
  end.

(** [s.split(sep, maxsplit)] for a non-empty [sep]; [budget = None] is
    the call without [maxsplit].  [cur] is the piece being collected. *)
Definition may_split (budget : option nat) : bool :=
  match budget with Some O => false | _ => true end.

Definition spend (budget : option nat) : option nat :=
  match budget with Some n => Some (pred n) | None => None end.

Fixpoint split_from (sep : string) (budget : option nat) (skip : nat)
         (cur s : string) : list string :=
  match s with
  | EmptyString => [cur]
  | String c s' =>
      match skip with
      | S k => split_from sep budget k cur s'
      | O =>
          if may_split budget && startswith s sep
          then cur :: split_from sep (spend budget) (String.length sep - 1) EmptyString s'
          else split_from sep budget 0 (cur ++ String c EmptyString) s'
      end
  end.

Definition split (sep : string) (s : string) : list string :=
  split_from sep None 0 EmptyString s.

Definition split_max (sep : string) (maxsplit : nat) (s : string) : list string :=
  split_from sep (Some maxsplit) 0 EmptyString s.

(** [l[:-1]] on a list. *)
Definition init_of {A : Type} (l : list A) : list A := removelast l.

End PyStr.

Import PyStr.

(** ** Data model *)

(** One element of [sections["write_files"]]. *)
Record FileEntry : Type := mkFileEntry {
  path : string;
  owner : string;
  permissions : string;
  content : string
}.

(** The [sections] dictionary of [parse_cloud_init]: its four keys are
    fixed, so it is a record. *)
Record Config : Type := mkConfig {
  packages : list string;
  write_files : list FileEntry;
  runcmd : list string;
  ssh_pwauth : bool
}.

Definition set_owner (e : FileEntry) (v : string) : FileEntry :=
  mkFileEntry (path e) v (permissions e) (content e).
Definition set_permissions (e : FileEntry) (v : string) : FileEntry :=
  mkFileEntry (path e) (owner e) v (content e).
Definition set_content (e : FileEntry) (v : string) : FileEntry :=
  mkFileEntry (path e) (owner e) (permissions e) v.

Definition set_packages (s : Config) (v : list string) : Config :=
  mkConfig v (write_files s) (runcmd s) (ssh_pwauth s).
Definition set_write_files (s : Config) (v : list FileEntry) : Config :=
  mkConfig (packages s) v (runcmd s) (ssh_pwauth s).
Definition set_runcmd (s : Config) (v : list string) : Config :=
  mkConfig (packages s) (write_files s) v (ssh_pwauth s).
Definition set_ssh_pwauth (s : Config) (v : bool) : Config :=
  mkConfig (packages s) (write_files s) (runcmd s) v.

(** The initial value of [sections]. *)
Definition initial_sections : Config := mkConfig [] [] [] true.

(** ** Outcomes of the scanner *)

Inductive exn : Type := IndexError.

(** A run returns a value, raises, or exhausts the fuel of the
    embedding. *)
Inductive outcome (A : Type) : Type :=
| Done (a : A)
| Raise (e : exn)
| OutOfFuel.

Arguments Done {A} a.
Arguments Raise {A} e.
Arguments OutOfFuel {A}.

Definition bind {A B : Type} (m : outcome A) (k : A -> outcome B) : outcome B :=
  match m with
  | Done a => k a
  | Raise e => Raise e
  | OutOfFuel => OutOfFuel
  end.

Notation "x <- m ;; k" := (bind m (fun x => k))
  (at level 61, m at next level, right associativity).
Notation "' pat <- m ;; k" := (bind m (fun x => match x with pat => k end))
  (at level 61, pat pattern, m at next level, right associativity).

(** [l[k]] on a list and [s[k]] on a string, for a non-negative [k]. *)
Definition item_at {A : Type} (l : list A) (k : nat) : outcome A :=
  match nth_error l k with
  | Some x => Done x
  | None => Raise IndexError
  end.

Definition char_at (s : string) (k : nat) : outcome ascii :=
  match String.get k s with
  | Some c => Done c
  | None => Raise IndexError
  end.

(** The scanner's position: the line index [i] of the source, and a
    ghost history the source does not have: the value of [i] at the
    start of every loop body executed so far (all loops together), the
    latest first. *)
Record cursor : Type := mkCursor {
  idx : nat;
  visited : list nat
}.

(** [i += 1]. *)
Definition advance (c : cursor) : cursor := mkCursor (S (idx c)) (visited c).
(** One more loop body entered, at the current index. *)
Definition tick (c : cursor) : cursor := mkCursor (idx c) (idx c :: visited c).
(** The number of loop bodies executed so far. *)
Definition iterations (c : cursor) : nat := length (visited c).

(** ** The parser *)

(** Lines 124-125: a command that starts and ends with a single quote
    loses its first and last character. *)
Definition unquote (cmd : string) : string :=
  if startswith cmd "'" && endswith cmd "'" then slice_1_m1 cmd else cmd.

(** [content_indent and l.startswith(" " * content_indent)]. *)
Definition has_indent (content_indent : option nat) (l : string) : bool :=
  match content_indent with
  | Some (S n) => startswith l (spaces (S n))
  | _ => false
  end.

Definition indent_width (content_indent : option nat) : nat :=
  match content_indent with Some n => n | None => 0 end.

(** Lines 90-91. *)
Definition detect_indent (content_indent : option nat) (cl : string) : option nat :=
  match content_indent with
  | None =>
      if truthy (strip cl)
      then Some (String.length cl - String.length (lstrip cl))
      else None
  | Some n => Some n
  end.

(** [s == ""] after [strip]. *)
Definition is_blank (l : string) : bool := (strip l =? "")%string.

Section Scanner.

Variable lines : list string.

(** Lines 39-43, the [packages] block. *)
Fixpoint packages_loop (fuel : nat) (c : cursor) (pkgs : list string)
  : outcome (cursor * list string) :=
  match fuel with
  | O => OutOfFuel
  | S fuel' =>
      if idx c <? length lines then
        l <- item_at lines (idx c) ;;
        if startswith l "  " || is_blank l then
          let c := tick c in
          let s := strip l in
          let pkgs := if startswith s "- "
                      then pkgs +++ [strip (drop 2 s)] else pkgs in
          packages_loop fuel' (advance c) pkgs
        else Done (c, pkgs)
      else Done (c, pkgs)
  end.

(** Lines 116-127, the [runcmd] block. *)
Fixpoint runcmd_loop (fuel : nat) (c : cursor) (cmds : list string)
  : outcome (cursor * list string) :=
  match fuel with
  | O => OutOfFuel
  | S fuel' =>
      if idx c <? length lines then
        l <- item_at lines (idx c) ;;
        if startswith l "  " || is_blank l then
          let c := tick c in
          let s := strip l in
          if startswith s "# " then runcmd_loop fuel' (advance c) cmds
          else
            let cmds := if startswith s "- "
                        then cmds +++ [unquote (drop 2 s)] else cmds in
            runcmd_loop fuel' (advance c) cmds
        else Done (c, cmds)
      else Done (c, cmds)
  end.

(** Line 98: [i + 1 < len(lines) and content_indent and
    lines[i + 1].startswith(" " * content_indent)]. *)
Definition next_line_indented (c : cursor) (content_indent : option nat)
  : outcome bool :=
  if S (idx c) <? length lines then
    match content_indent with
    | Some (S n) =>
        l <- item_at lines (S (idx c)) ;;
        Done (startswith l (spaces (S n)))
    | _ => Done false
    end
  else Done false.

(** Lines 86-104, the lines of a [content:] block literal. *)
Fixpoint content_loop (fuel : nat) (c : cursor) (content_indent : option nat)
         (content_lines : list string) : outcome (cursor * list string) :=
  match fuel with
  | O => OutOfFuel
  | S fuel' =>
      if idx c <? length lines then
        let c := tick c in
        cl <- item_at lines (idx c) ;;
        let content_indent := detect_indent content_indent cl in
        if has_indent content_indent cl && (0 <? String.length cl) then
          content_loop fuel' (advance c) content_indent
                       (content_lines +++ [drop (indent_width content_indent) cl])
        else if is_blank cl then
          more <- next_line_indented c content_indent ;;
          if (more : bool) then
            content_loop fuel' (advance c) content_indent (content_lines +++ [""])
          else Done (c, content_lines)
        else Done (c, content_lines)
      else Done (c, content_lines)
  end.

(** Line 72: the test that ends the fields of an entry. *)
Definition entry_ends (fl : string) : outcome bool :=
  let fs := strip fl in
  if startswith fs "- path:" then Done true
  else if truthy fl then
    c0 <- char_at fl 0 ;;
    Done (negb (isspace c0) && truthy fs && negb (startswith fs "#"))
  else Done false.

(** Lines 68-107, the fields of one [write_files] entry. *)
Fixpoint entry_loop (fuel : nat) (c : cursor) (entry : FileEntry)
  : outcome (cursor * FileEntry) :=
  match fuel with
  | O => OutOfFuel
  | S fuel' =>
      if idx c <? length lines then
        let c := tick c in
        fl <- item_at lines (idx c) ;;
        let fs := strip fl in
        stop <- entry_ends fl ;;
        if (stop : bool) then Done (c, entry)
        else if startswith fs "owner:" then
          v <- item_at (split_max "owner:" 1 fs) 1 ;;
          entry_loop fuel' (advance c) (set_owner entry (strip v))
        else if startswith fs "permissions:" then
          v <- item_at (split_max "permissions:" 1 fs) 1 ;;
          entry_loop fuel' (advance c)
                     (set_permissions entry
                        (strip_by (Ascii.eqb dquote) (strip v)))
        else if startswith fs "content:" then
          '(c', content_lines) <- content_loop fuel' (advance c) None [] ;;
          entry_loop fuel' c'
                     (set_content entry (rstrip (join nl content_lines)))
        else entry_loop fuel' (advance c) entry
      else Done (c, entry)
  end.

(** Line 52: the test that ends the [write_files] section. *)
Definition section_ends (l : string) : outcome bool :=
  if truthy l then
    c0 <- char_at l 0 ;;
    Done (negb (isspace c0) && negb (startswith (strip l) "#"))
  else Done false.

(** Lines 49-110, the [write_files] section. *)
Fixpoint write_files_loop (fuel : nat) (c : cursor) (files : list FileEntry)
  : outcome (cursor * list FileEntry) :=
  match fuel with
  | O => OutOfFuel
  | S fuel' =>
      if idx c <? length lines then
        let c := tick c in
        l <- item_at lines (idx c) ;;
        let s := strip l in
        stop <- section_ends l ;;
        if (stop : bool) then Done (c, files)
        else if (s =? "")%string || startswith s "#" then
          write_files_loop fuel' (advance c) files
        else if startswith s "- path:" then
          v <- item_at (split_max "path:" 1 s) 1 ;;
          let entry := mkFileEntry (strip v) "root:root" "0644" "" in
          '(c', entry') <- entry_loop fuel' (advance c) entry ;;
          write_files_loop fuel' c' (files +++ [entry'])
        else write_files_loop fuel' (advance c) files
      else Done (c, files)
  end.

(** Lines 27-130, the scan of the top-level keys. *)
Fixpoint main_loop (fuel : nat) (c : cursor) (sections : Config)
  : outcome (cursor * Config) :=
  match fuel with
  | O => OutOfFuel
  | S fuel' =>
      if idx c <? length lines then
        let c := tick c in
        line <- item_at lines (idx c) ;;
        if startswith line "ssh_pwauth:" then
          main_loop fuel' (advance c)
                    (set_ssh_pwauth sections (contains line "true"))
        else if (line =? "packages:")%string then
          '(c', pkgs) <- packages_loop fuel' (advance c) (packages sections) ;;
          main_loop fuel' c' (set_packages sections pkgs)
        else if (line =? "write_files:")%string then
          '(c', files) <- write_files_loop fuel' (advance c) (write_files sections) ;;
          main_loop fuel' c' (set_write_files sections files)
        else if (line =? "runcmd:")%string then
          '(c', cmds) <- runcmd_loop fuel' (advance c) (runcmd sections) ;;
          main_loop fuel' c' (set_runcmd sections cmds)
        else main_loop fuel' (advance c) sections
      else Done (c, sections)
  end.

End Scanner.

(** [parse_cloud_init] on the text of the file: [scan] keeps the final
    cursor, [parse_cloud_init] returns [sections] alone. *)
Definition scan (text : string) : outcome (cursor * Config) :=
  let lines := split nl text in
  main_loop lines (S (length lines)) (mkCursor 0 []) initial_sections.

Definition parse_cloud_init (text : string) : outcome Config :=
  r <- scan text ;; Done (snd r).

(** ** The generator *)

Definition home (user : string) : string :=
  if negb (user =? "root")%string then "/home/" ++ user else "/root".

Definition header : list string :=
  ["#!/bin/bash"; "set -x"; "export DEBIAN_FRONTEND=noninteractive"; ""].

(** Lines 146-151. *)
Definition packages_section (sections : Config) : list string :=
  match packages sections with
  | [] => []
  | _ :: _ =>
      ["# System packages"; "apt-get update -y"; "apt-get upgrade -y";
       "apt-get install -y " ++ join " " (packages sections); ""]
  end.

(** Lines 159-165: the substitutions of the user into one entry. *)
Definition rewrite_path (user p : string) : string :=
  if negb (user =? "ubuntu")%string then replace "/home/ubuntu" (home user) p else p.
Definition rewrite_owner (user o : string) : string :=
  if negb (user =? "ubuntu")%string then replace "ubuntu" user o else o.
Definition rewrite_content (user t : string) : string :=
  if negb (user =? "ubuntu")%string then replace "/home/ubuntu" (home user) t else t.

(** Lines 167-176: the lines written for one file. *)
Definition emit_file (path owner perms content : string) : list string :=
  let parent := join "/" (init_of (split "/" path)) in
  (if truthy parent then ["mkdir -p " ++ parent] else [])
  +++ ["cat > " ++ path ++ " << 'FILEEOF'";
       content;
       "FILEEOF";
       "chmod " ++ perms ++ " " ++ path;
       "chown " ++ owner ++ " " ++ path;
       ""].

(** Lines 154-176: the body of the loop over [write_files]. *)
Definition file_block (user : string) (entry : FileEntry) : list string :=
  if contains (path entry) "sshd_config" then []
  else emit_file (rewrite_path user (path entry))
                 (rewrite_owner user (owner entry))
                 (permissions entry)
                 (rewrite_content user (content entry)).

(** Lines 180-187. *)
Definition ssh_hardening_block : list string :=
  ["# SSH hardening";
   "cat > /etc/ssh/sshd_config.d/99-hardening.conf << 'SSHCONF'";
   "PasswordAuthentication no";
   "KbdInteractiveAuthentication no";
   "PubkeyAuthentication yes";
   "PermitRootLogin prohibit-password";
   "SSHCONF";
   ""].

Definition ssh_section (sections : Config) : list string :=
  if negb (ssh_pwauth sections) then ssh_hardening_block else [].

(** Lines 193-199. *)
Definition rewrite_cmd (user cmd : string) : string :=
  if negb (user =? "ubuntu")%string then
    replace "su - ubuntu" ("su - " ++ user)
      (replace "chown -R ubuntu:ubuntu" ("chown -R " ++ user ++ ":" ++ user)
         (replace "chsh -s /usr/bin/zsh ubuntu" ("chsh -s /usr/bin/zsh " ++ user)
            (replace "/home/ubuntu" (home user)
               (replace "ubuntu:ubuntu" (user ++ ":" ++ user) cmd))))
  else cmd.

(** Lines 190-201. *)
Definition runcmd_section (user : string) (sections : Config) : list string :=
  match runcmd sections with
  | [] => []
  | _ :: _ =>
      "# Run commands" :: map (rewrite_cmd user) (runcmd sections) +++ [""]
  end.

(** The list [out] at the end of [generate_bash]. *)
Definition generate_lines (sections : Config) (user : string) : list string :=
  header
  +++ packages_section sections
  +++ flat_map (file_block user) (write_files sections)
  +++ ssh_section sections
  +++ runcmd_section user sections.

Definition generate_bash (sections : Config) (user : string) : string :=
  join nl (generate_lines sections user).

(** Lines 214-215 of the script: parse, then generate. *)
Definition convert (text user : string) : outcome string :=
  sections <- parse_cloud_init text ;; Done (generate_bash sections user).

(** ** Notions used in the statements *)

(** The physical lines of a script. *)
Definition script_lines (script : string) : list string := split nl script.

(** [descending b l]: the list never increases from its head on, and its
    head is at most [b]. *)
Fixpoint descending (bound : nat) (l : list nat) : Prop :=
  match l with
  | [] => True
  | x :: l' => x <= bound /\ descending x l'
  end.

(** What every loop of the scanner needs when entered at [c] (the index
    is in range, the fuel covers the lines left, the history is
    monotone), and what it guarantees when it leaves at [c']: the index
    did not move back and is in range, the history is monotone, and at
    most [a] loop bodies per line advanced plus [b] were run. *)
Definition loop_pre (lines : list string) (fuel : nat) (c : cursor) : Prop :=
  idx c <= length lines /\ length lines - idx c < fuel /\
  descending (idx c) (visited c).

Definition loop_post (lines : list string) (a b : nat) (c c' : cursor) : Prop :=
  idx c <= idx c' /\ idx c' <= length lines /\
  descending (idx c') (visited c') /\
  iterations c' <= iterations c + a * (idx c' - idx c) + b.

(** One pass through the body of a loop [run], entered at [c] with the
    local state [a]: either the loop is left in this pass, whatever
    the fuel, or the loop goes round again from an index that is
    larger. *)
Definition iteration_progresses {A R : Type}
           (run : nat -> cursor -> A -> outcome R)
           (fuel : nat) (c : cursor) (a : A) : Prop :=
  (exists r, forall f, run (S f) c a = Done r)
  \/ (exists c' a', idx c < idx c' /\ run (S fuel) c a = run fuel c' a').

(** [block] occurs in [l] at position 0, and the number of positions of
    [l] at which it occurs. *)
Fixpoint starts_with_block (block l : list string) : bool :=
  match block, l with
  | [], _ => true
  | _ :: _, [] => false
  | x :: block', y :: l' => (x =? y)%string && starts_with_block block' l'
  end.

Fixpoint occurrences (block l : list string) : nat :=
  (if starts_with_block block l then 1 else 0)
  + match l with
    | [] => 0
    | _ :: l' => occurrences block l'
    end.

(** The line of the scanner after the current one has the indentation
    [n]; false at the end of the input. *)
Definition next_has_indent (lines : list string) (c : cursor) (n : nat) : bool :=
  match nth_error lines (S (idx c)) with
  | Some l => startswith l (spaces n)
  | None => false
  end.

(** A list of lines that ends with an empty line. *)
Definition ends_blank (l : list string) : Prop := exists s, l = s +++ [""].

(** The lines generated before the SSH section. *)
Definition lines_before_ssh (sections : Config) (user : string) : list string :=
  header
  +++ packages_section sections
  +++ flat_map (file_block user) (write_files sections).

(** A text wrapped in a pair of single quotes: an opening quote, a
    body, and a closing quote of its own. *)
Definition wrapped_in_quotes (t body : string) : Prop :=
  t = "'" ++ body ++ "'".

(** The document of the round-trip scenario and the script expected
    for the user [deploy]. *)
Definition dq : string := String dquote EmptyString.

Definition round_trip_doc : string :=
  join nl
    ["packages:";
     "  - nginx";
     "  - git";
     "write_files:";
     "  - path: /etc/motd";
     "    owner: root:root";
     "    permissions: " ++ dq ++ "0644" ++ dq;
     "    content: |";
     "      hello";
     "      world";
     "runcmd:";
     "  - echo done";
     "ssh_pwauth: false";
     ""].

Definition round_trip_config : Config :=
  mkConfig ["nginx"; "git"]
           [mkFileEntry "/etc/motd" "root:root" "0644" ("hello" ++ nl ++ "world")]
           ["echo done"]
           false.

Definition round_trip_script : list string :=
  ["#!/bin/bash";
   "set -x";
   "export DEBIAN_FRONTEND=noninteractive";
   "";
   "# System packages";
   "apt-get update -y";
   "apt-get upgrade -y";
   "apt-get install -y nginx git";
   "";
   "mkdir -p /etc";
   "cat > /etc/motd << 'FILEEOF'";
   "hello";
   "world";
   "FILEEOF";
   "chmod 0644 /etc/motd";
   "chown root:root /etc/motd";
   "";
   "# SSH hardening";
   "cat > /etc/ssh/sshd_config.d/99-hardening.conf << 'SSHCONF'";
   "PasswordAuthentication no";
   "KbdInteractiveAuthentication no";
   "PubkeyAuthentication yes";
   "PermitRootLogin prohibit-password";
   "SSHCONF";
   "";
   "# Run commands";
   "echo done";
   ""].

(** A [write_files] entry whose block literal holds a whitespace-only
    line that carries the block's indentation, followed by an empty
    line and a further indented line. *)
Definition padded_blank_doc : string :=
  join nl
    ["write_files:";
     "  - path: /etc/motd";
     "    content: |";
     "      hello";
     "      ";
     "";
     "      world"].

(** A document whose [runcmd] items are the lines of the SSH
    hardening block, and the commands it parses to. *)
Definition repeated_block_doc : string :=
  join nl
    ["runcmd:";
     "  - # SSH hardening";
     "  - cat > /etc/ssh/sshd_config.d/99-hardening.conf << 'SSHCONF'";
     "  - PasswordAuthentication no";
     "  - KbdInteractiveAuthentication no";
     "  - PubkeyAuthentication yes";
     "  - PermitRootLogin prohibit-password";
     "  - SSHCONF"].

Definition repeated_block_cmds : list string :=
  ["# SSH hardening";
   "cat > /etc/ssh/sshd_config.d/99-hardening.conf << 'SSHCONF'";
   "PasswordAuthentication no";
   "KbdInteractiveAuthentication no";
   "PubkeyAuthentication yes";
   "PermitRootLogin prohibit-password";
   "SSHCONF"].

(** ** Further notions: the generator *)

(** Line 168: the directory part of a path. *)
Definition parent_dir (p : string) : string := join "/" (init_of (split "/" p)).

(** No string of the Config that the generator rewrites mentions
    [ubuntu]. *)
Definition entry_free_of_ubuntu (e : FileEntry) : Prop :=
  contains (path e) "ubuntu" = false
  /\ contains (owner e) "ubuntu" = false
  /\ contains (content e) "ubuntu" = false.

Definition config_free_of_ubuntu (sections : Config) : Prop :=
  Forall entry_free_of_ubuntu (write_files sections)
  /\ Forall (fun cmd => contains cmd "ubuntu" = false) (runcmd sections).

(** ** Further notions: the parser *)

Fixpoint take_while {A : Type} (p : A -> bool) (l : list A) : list A :=
  match l with
  | [] => []
  | x :: l' => if p x then x :: take_while p l' else []
  end.

(** The test of lines 39 and 116 on a line of a [packages] or
    [runcmd] block. *)
Definition in_block (l : string) : bool := startswith l "  " || is_blank l.

(** The item test of lines 41 and 121. *)
Definition is_item (l : string) : bool := startswith (strip l) "- ".

(** What the item lines of a block add to [packages] and to
    [runcmd]. *)
Definition package_items (block : list string) : list string :=
  map (fun l => strip (drop 2 (strip l))) (filter is_item block).

Definition command_items (block : list string) : list string :=
  map (fun l => unquote (drop 2 (strip l))) (filter is_item block).

(** A top-level line: not empty, its first character is not
    whitespace, and it is not a comment. *)
Definition toplevel (l : string) : bool :=
  match l with
  | EmptyString => false
  | String c _ => negb (isspace c) && negb (startswith (strip l) "#")
  end.

(** No line with an index from [a] up to [b], [b] excluded, is a
    top-level line. *)
Definition passes_no_toplevel (lines : list string) (a b : nat) : Prop :=
  forall j l, a <= j < b -> nth_error lines j = Some l -> toplevel l = false.

(** The value of [ssh_pwauth] after the given lines, each line that
    starts with the key overriding what came before. *)
Definition pwauth_after (lines : list string) (init : bool) : bool :=
  fold_left (fun acc l => if startswith l "ssh_pwauth:" then contains l "true" else acc)
            lines init.

(** The strings of a Config as the parser leaves them: trimmed. *)
Definition tidy_entry (e : FileEntry) : Prop :=
  strip (path e) = path e
  /\ strip (owner e) = owner e
  /\ strip_by (Ascii.eqb dquote) (permissions e) = permissions e
  /\ rstrip (content e) = content e.

Definition tidy (sections : Config) : Prop :=
  Forall (fun p => strip p = p) (packages sections)
  /\ Forall tidy_entry (write_files sections).

(** A string without the character [ch]. *)
Fixpoint free_of (ch : ascii) (s : string) : bool :=
  match s with
  | EmptyString => true
  | String c s' => negb (Ascii.eqb c ch) && free_of ch s'
  end.

Definition single_line (s : string) : Prop := free_of (ascii_of_nat 10) s = true.

Definition single_line_entry (e : FileEntry) : Prop :=
  single_line (path e) /\ single_line (owner e) /\ single_line (permissions e).

(** ** The script as a program *)

(** What a run of the script leaves behind: the usage message on the
    error stream and the exit code, or the text printed, or the failure
    of opening or reading the file, which the script does not catch. *)
Inductive run_result : Type :=
| UsageExit (stderr : string) (code : nat)
| Printed (stdout : string)
| ReadFailed.

(** Lines 206-215.  [read_file] is the file system: the text of the
    file at a path, if it can be read. *)
Definition main (argv : list string) (read_file : string -> option string)
  : outcome run_result :=
  if length argv <? 2 then
    a0 <- item_at argv 0 ;;
    Done (UsageExit ("Usage: " ++ a0 ++ " cloud-init.yaml [user]" ++ nl) 1)
  else
    p <- item_at argv 1 ;;
    user <- (if 2 <? length argv then item_at argv 2 else Done "ubuntu") ;;
    match read_file p with
    | None => Done ReadFailed
    | Some text =>
        sections <- parse_cloud_init text ;;
        Done (Printed (generate_bash sections user ++ nl))
    end.

(** The items of the blocks that follow the lines [packages:], and of
    those that follow the lines [runcmd:], in the order of the
    document. *)
Fixpoint all_packages (lines : list string) : list string :=
  match lines with
  | [] => []
  | l :: rest =>
      (if (l =? "packages:")%string
       then package_items (take_while in_block rest) else [])
      +++ all_packages rest
  end.

Fixpoint all_commands (lines : list string) : list string :=
  match lines with
  | [] => []
  | l :: rest =>
      (if (l =? "runcmd:")%string
       then command_items (take_while in_block rest) else [])
      +++ all_commands rest
  end.

(** ** Checks of the primitives against the Python results *)

Example strip_ex : strip "   - nginx  " = "- nginx".
Proof. reflexivity. Qed.
Example slice_ex :
  slice_1_m1 "'ab'" = "ab" /\ slice_1_m1 "ab" = "" /\ slice_1_m1 "a" = "".
Proof. repeat split. Qed.
Example replace_ex :
  replace "/home/ubuntu" "/root" "cd /home/ubuntu; ls /home/ubuntu/x"
  = "cd /root; ls /root/x".
Proof. reflexivity. Qed.
Example replace_overlap_ex : replace "aa" "b" "aaaaa" = "bba".
Proof. reflexivity. Qed.
Example replace_empty_ex : replace "" "-" "abc" = "-a-b-c-".
Proof. reflexivity. Qed.
Example split_ex : split "/" "/etc/ssh/x" = [""; "etc"; "ssh"; "x"].
Proof. reflexivity. Qed.
Example split_max_ex :
  split_max "path:" 1 "- path: /a/path:b" = ["- "; " /a/path:b"].
Proof. reflexivity. Qed.
Example split_nl_ex :
  split nl ("a" ++ nl ++ nl ++ "b" ++ nl) = ["a"; ""; "b"; ""].
Proof. reflexivity. Qed.
Example rstrip_ex :
  rstrip ("hello" ++ nl ++ "world" ++ nl ++ "  " ++ nl) = "hello" ++ nl ++ "world".
Proof. reflexivity. Qed.
Example endswith_ex :
  endswith "'x'" "'" = true /\ endswith "'" "'" = true /\ endswith "" "'" = false.
Proof. repeat split. Qed.
Example parent_ex :
  join "/" (init_of (split "/" "/etc/motd")) = "/etc"
  /\ join "/" (init_of (split "/" "motd")) = ""
  /\ join "/" (init_of (split "/" "/motd")) = "".
Proof. repeat split. Qed.

(** ** The primitives, characterised *)

Lemma startswith_spec (s p : string) :
  startswith s p = true <-> exists r, s = p ++ r.
Proof.
  revert s. induction p as [|b p IH]; intros s.
  - cbn. split; [intros _; exists s; reflexivity|reflexivity].
  - destruct s as [|a s]; cbn [startswith append].
    + split; [discriminate|intros [r H]; discriminate].
    + rewrite andb_true_iff, Ascii.eqb_eq, IH. split.
      * intros [-> [r ->]]. exists r. reflexivity.
      * intros [r H]. injection H as -> ->. split; [reflexivity|eauto].
Qed.

Lemma contains_spec (s sub : string) :
  contains s sub = true <-> exists a b, s = a ++ sub ++ b.
Proof.
  induction s as [|c s IH].
  - cbn [contains]. rewrite orb_false_r, startswith_spec. split.
    + intros [r H]. exists "", r. exact H.
    + intros [a [b H]]. destruct a; [exists b; exact H|discriminate].
  - cbn [contains]. rewrite orb_true_iff, startswith_spec, IH. split.
    + intros [[r H] | [a [b H]]].
      * exists "", r. exact H.
      * exists (String c a), b. cbn [append]. rewrite H. reflexivity.
    + intros [a [b H]]. destruct a as [|c' a].
      * left. exists b. exact H.
      * right. cbn [append] in H. injection H as _ H. eauto.
Qed.

Lemma replace_from_skip (old new : string) (k : nat) (s : string) :
  replace_from old new k s = replace_from old new 0 (drop k s).
Proof.
  revert k. induction s as [|c s IH]; intros k.
  - destruct k; reflexivity.
  - destruct k; [reflexivity|]. cbn [replace_from drop]. apply IH.
Qed.

(** [replace] takes the occurrences of a non-empty [old] from the left
    and resumes after each one. *)
Lemma replace_unfold (old new : string) (c : ascii) (s : string) :
  old <> "" ->
  replace old new (String c s)
  = if startswith (String c s) old
    then new ++ replace old new (drop (String.length old) (String c s))
    else String c (replace old new s).
Proof.
  intros Hne. destruct old as [|a old]; [congruence|].
  unfold replace. cbn [replace_from].
  destruct (startswith (String c s) (String a old)); [|reflexivity].
  rewrite replace_from_skip. cbn [String.length drop Nat.sub].
  rewrite ?Nat.sub_0_r. reflexivity.
Qed.

(** [rstrip_by] removes a suffix of characters of the set, and what is
    left does not end with one. *)
Lemma rstrip_by_suffix (p : ascii -> bool) (s : string) :
  exists w, s = rstrip_by p s ++ w
            /\ forallb p (list_ascii_of_string w) = true.
Proof.
  induction s as [|c s [w [Hs Hw]]].
  - exists "". split; reflexivity.
  - cbn [rstrip_by]. destruct (rstrip_by p s) as [|a r] eqn:E.
    + cbn [append] in Hs. subst s. destruct (p c) eqn:Pc.
      * exists (String c w).
        split; [reflexivity|]. cbn. rewrite Pc, Hw. reflexivity.
      * exists w. split; [reflexivity|exact Hw].
    + exists w. rewrite Hs at 1. split; [reflexivity|exact Hw].
Qed.

Lemma rstrip_by_last (p : ascii -> bool) (s b : string) (c : ascii) :
  rstrip_by p s = b ++ String c "" -> p c = false.
Proof.
  revert b. induction s as [|a s IH]; intros b H.
  - destruct b; discriminate.
  - cbn [rstrip_by] in H. destruct (rstrip_by p s) as [|a' r] eqn:E.
    + destruct (p a) eqn:Pa.
      * destruct b; discriminate.
      * destruct b as [|x b]; [injection H as ->; exact Pa|].
        injection H as _ H. destruct b; discriminate.
    + destruct b as [|x b]; [discriminate|].
      injection H as _ H. apply (IH b). exact H.
Qed.

(** ** Totality and progress of the scanner *)

Lemma descending_le b b' l : b <= b' -> descending b l -> descending b' l.
Proof. destruct l; simpl; intuition lia. Qed.

Lemma item_at_lt {A} (l : list A) i :
  i < length l -> exists x, nth_error l i = Some x /\ item_at l i = Done x.
Proof.
  intros H. unfold item_at.
  destruct (nth_error l i) eqn:E.
  - eauto.
  - apply nth_error_None in E. lia.
Qed.

Lemma char_at_truthy s : truthy s = true -> exists c, char_at s 0 = Done c.
Proof. destruct s; simpl; [discriminate|]. intros _. unfold char_at. simpl. eauto. Qed.

Lemma split_from_nonempty sep b k cur s : split_from sep b k cur s <> [].
Proof.
  revert b k cur. induction s as [|c s IH]; intros b k cur; cbn [split_from].
  - discriminate.
  - destruct k; [|apply IH].
    destruct (may_split b && startswith (String c s) sep); [discriminate|apply IH].
Qed.

Lemma split_max_second sep s cur :
  sep <> "" -> contains s sep = true ->
  exists x, item_at (split_from sep (Some 1) 0 cur s) 1 = Done x.
Proof.
  intros Hsep. revert cur. induction s as [|c s IH]; intros cur H.
  - simpl in H. destruct sep; [congruence|discriminate].
  - cbn [split_from]. cbn [contains] in H.
    destruct (startswith (String c s) sep) eqn:E.
    + cbn [may_split andb].
      destruct (split_from sep (spend (Some 1)) (String.length sep - 1) "" s) eqn:F.
      * exfalso. eapply split_from_nonempty; eauto.
      * unfold item_at. simpl. eauto.
    + simpl in H. rewrite andb_false_r. apply IH. exact H.
Qed.

Lemma startswith_contains s p : startswith s p = true -> contains s p = true.
Proof. destruct s; simpl; intros ->; reflexivity. Qed.

Section ScannerFacts.

Variable lines : list string.

Ltac norm :=
  unfold loop_pre, loop_post, iterations, advance, tick in *;
  cbn [idx visited length descending] in *.

Ltac stay := eexists; eexists; split; [reflexivity|]; norm; intuition lia.

Ltac read_line E :=
  let l := fresh "l" in
  let Hl := fresh "Hl" in
  apply Nat.ltb_lt in E;
  destruct (item_at_lt lines _ E) as [l [_ Hl]];
  cbn [idx tick] in *; rewrite Hl; cbn [bind].

Lemma packages_loop_spec fuel : forall c pkgs,
  loop_pre lines fuel c ->
  exists c' pkgs', packages_loop lines fuel c pkgs = Done (c', pkgs')
                   /\ loop_post lines 1 0 c c'.
Proof.
  induction fuel as [|fuel IH]; intros c pkgs Hpre; [norm; lia|].
  cbn [packages_loop].
  destruct (idx c <? length lines) eqn:E; [|stay].
  read_line E.
  destruct (startswith l "  " || is_blank l); [|stay].
  match goal with |- context [packages_loop lines fuel ?c1 ?p1] =>
    destruct (IH c1 p1) as [c' [p' [-> Hp]]]; [norm; intuition lia|] end.
  exists c', p'. split; [reflexivity|]. norm. intuition lia.
Qed.

Lemma runcmd_loop_spec fuel : forall c cmds,
  loop_pre lines fuel c ->
  exists c' cmds', runcmd_loop lines fuel c cmds = Done (c', cmds')
                   /\ loop_post lines 1 0 c c'.
Proof.
  induction fuel as [|fuel IH]; intros c cmds Hpre; [norm; lia|].
  cbn [runcmd_loop].
  destruct (idx c <? length lines) eqn:E; [|stay].
  read_line E.
  destruct (startswith l "  " || is_blank l); [|stay].
  destruct (startswith (strip l) "# ");
  match goal with |- context [runcmd_loop lines fuel ?c1 ?p1] =>
    destruct (IH c1 p1) as [c' [p' [-> Hp]]]; [norm; intuition lia|] end;
  exists c', p'; (split; [reflexivity|]); norm; intuition lia.
Qed.

Lemma next_line_indented_total c ci :
  exists b, next_line_indented lines c ci = Done b.
Proof.
  unfold next_line_indented.
  destruct (S (idx c) <? length lines) eqn:E; [|eauto].
  destruct ci as [[|k]|]; eauto.
  apply Nat.ltb_lt in E.
  destruct (item_at_lt lines _ E) as [l [_ ->]]. cbn [bind]. eauto.
Qed.

Lemma content_loop_spec fuel : forall c ci acc,
  loop_pre lines fuel c ->
  exists c' acc', content_loop lines fuel c ci acc = Done (c', acc')
                  /\ loop_post lines 1 1 c c'.
Proof.
  induction fuel as [|fuel IH]; intros c ci acc Hpre; [norm; lia|].
  cbn [content_loop].
  destruct (idx c <? length lines) eqn:E; [|stay].
  read_line E.
  destruct (has_indent (detect_indent ci l) l && (0 <? String.length l)).
  - match goal with |- context [content_loop lines fuel ?c1 ?i1 ?p1] =>
      destruct (IH c1 i1 p1) as [c' [p' [-> Hp]]]; [norm; intuition lia|] end.
    exists c', p'. split; [reflexivity|]. norm. intuition lia.
  - destruct (is_blank l); [|stay].
    destruct (next_line_indented_total (tick c) (detect_indent ci l)) as [b Hb].
    rewrite Hb. cbn [bind]. destruct b; [|stay].
    match goal with |- context [content_loop lines fuel ?c1 ?i1 ?p1] =>
      destruct (IH c1 i1 p1) as [c' [p' [-> Hp]]]; [norm; intuition lia|] end.
    exists c', p'. split; [reflexivity|]. norm. intuition lia.
Qed.

Lemma entry_ends_total fl : exists b, entry_ends fl = Done b.
Proof.
  unfold entry_ends.
  destruct (startswith (strip fl) "- path:"); [eauto|].
  destruct (truthy fl) eqn:T; [|eauto].
  destruct (char_at_truthy fl T) as [c0 ->]. cbn [bind]. eauto.
Qed.

Lemma section_ends_total l : exists b, section_ends l = Done b.
Proof.
  unfold section_ends.
  destruct (truthy l) eqn:T; [|eauto].
  destruct (char_at_truthy l T) as [c0 ->]. cbn [bind]. eauto.
Qed.

Lemma field_value key s :
  key <> "" -> startswith s key = true ->
  exists v, item_at (split_max key 1 s) 1 = Done v.
Proof.
  intros Hk H. apply split_max_second; [exact Hk|].
  apply startswith_contains. exact H.
Qed.

Lemma dash_path_contains s :
  startswith s "- path:" = true -> contains s "path:" = true.
Proof.
  destruct s as [|a [|b s]]; try discriminate.
  - cbn. destruct (Ascii.eqb a "-"); discriminate.
  - intros H. cbn [startswith] in H.
    apply andb_true_iff in H. destruct H as [_ H].
    apply andb_true_iff in H. destruct H as [_ H].
    cbn [contains].
    rewrite (startswith_contains s "path:" H).
    rewrite !orb_true_r. reflexivity.
Qed.

Lemma path_value s :
  startswith s "- path:" = true ->
  exists v, item_at (split_max "path:" 1 s) 1 = Done v.
Proof.
  intros H. apply split_max_second; [discriminate|].
  apply dash_path_contains. exact H.
Qed.

Lemma entry_loop_spec fuel : forall c entry,
  loop_pre lines fuel c ->
  exists c' entry', entry_loop lines fuel c entry = Done (c', entry')
                    /\ loop_post lines 2 1 c c'.
Proof.
  induction fuel as [|fuel IH]; intros c entry Hpre; [norm; lia|].
  cbn [entry_loop].
  destruct (idx c <? length lines) eqn:E; [|stay].
  read_line E.
  destruct (entry_ends_total l) as [stop ->]. cbn [bind].
  destruct stop; [stay|].
  destruct (startswith (strip l) "owner:") eqn:Fo.
  { destruct (field_value "owner:" _ ltac:(discriminate) Fo) as [v ->]. cbn [bind].
    match goal with |- context [entry_loop lines fuel ?c1 ?p1] =>
      destruct (IH c1 p1) as [c' [p' [-> Hp]]]; [norm; intuition lia|] end.
    exists c', p'. split; [reflexivity|]. norm. intuition lia. }
  destruct (startswith (strip l) "permissions:") eqn:Fp.
  { destruct (field_value "permissions:" _ ltac:(discriminate) Fp) as [v ->]. cbn [bind].
    match goal with |- context [entry_loop lines fuel ?c1 ?p1] =>
      destruct (IH c1 p1) as [c' [p' [-> Hp]]]; [norm; intuition lia|] end.
    exists c', p'. split; [reflexivity|]. norm. intuition lia. }
  destruct (startswith (strip l) "content:") eqn:Fc.
  { destruct (content_loop_spec fuel (advance (tick c)) None [])
      as [c1 [cl [-> Hc]]]; [norm; intuition lia|]. cbn [bind].
    match goal with |- context [entry_loop lines fuel ?c1 ?p1] =>
      destruct (IH c1 p1) as [c' [p' [-> Hp]]]; [norm; intuition lia|] end.
    exists c', p'. split; [reflexivity|]. norm. intuition lia. }
  match goal with |- context [entry_loop lines fuel ?c1 ?p1] =>
    destruct (IH c1 p1) as [c' [p' [-> Hp]]]; [norm; intuition lia|] end.
  exists c', p'. split; [reflexivity|]. norm. intuition lia.
Qed.

Lemma write_files_loop_spec fuel : forall c files,
  loop_pre lines fuel c ->
  exists c' files', write_files_loop lines fuel c files = Done (c', files')
                    /\ loop_post lines 2 1 c c'.
Proof.
  induction fuel as [|fuel IH]; intros c files Hpre; [norm; lia|].
  cbn [write_files_loop].
  destruct (idx c <? length lines) eqn:E; [|stay].
  read_line E.
  destruct (section_ends_total l) as [stop ->]. cbn [bind].
  destruct stop; [stay|].
  destruct ((strip l =? "")%string || startswith (strip l) "#").
  { match goal with |- context [write_files_loop lines fuel ?c1 ?p1] =>
      destruct (IH c1 p1) as [c' [p' [-> Hp]]]; [norm; intuition lia|] end.
    exists c', p'. split; [reflexivity|]. norm. intuition lia. }
  destruct (startswith (strip l) "- path:") eqn:Fp.
  { destruct (path_value _ Fp) as [v ->]. cbn [bind].
    match goal with |- context [entry_loop lines fuel ?c1 ?e1] =>
      destruct (entry_loop_spec fuel c1 e1) as [c1' [e1' [-> Hc]]];
        [norm; intuition lia|] end.
    cbn [bind].
    match goal with |- context [write_files_loop lines fuel ?c1 ?p1] =>
      destruct (IH c1 p1) as [c' [p' [-> Hp]]]; [norm; intuition lia|] end.
    exists c', p'. split; [reflexivity|]. norm. intuition lia. }
  match goal with |- context [write_files_loop lines fuel ?c1 ?p1] =>
    destruct (IH c1 p1) as [c' [p' [-> Hp]]]; [norm; intuition lia|] end.
  exists c', p'. split; [reflexivity|]. norm. intuition lia.
Qed.

Lemma main_loop_spec fuel : forall c sections,
  loop_pre lines fuel c ->
  exists c' sections', main_loop lines fuel c sections = Done (c', sections')
                       /\ loop_post lines 2 0 c c' /\ idx c' = length lines.
Proof.
  induction fuel as [|fuel IH]; intros c sections Hpre; [norm; lia|].
  cbn [main_loop].
  destruct (idx c <? length lines) eqn:E.
  2:{ apply Nat.ltb_ge in E. eexists; eexists; split; [reflexivity|].
      norm. intuition lia. }
  read_line E.
  destruct (startswith l "ssh_pwauth:").
  { match goal with |- context [main_loop lines fuel ?c1 ?p1] =>
      destruct (IH c1 p1) as [c' [p' [-> Hp]]]; [norm; intuition lia|] end.
    exists c', p'. split; [reflexivity|]. norm. intuition lia. }
  destruct (l =? "packages:")%string.
  { destruct (packages_loop_spec fuel (advance (tick c)) (packages sections))
      as [c1 [r1 [-> Hc]]]; [norm; intuition lia|]. cbn [bind].
    match goal with |- context [main_loop lines fuel ?c1 ?p1] =>
      destruct (IH c1 p1) as [c' [p' [-> Hp]]]; [norm; intuition lia|] end.
    exists c', p'. split; [reflexivity|]. norm. intuition lia. }
  destruct (l =? "write_files:")%string.
  { destruct (write_files_loop_spec fuel (advance (tick c)) (write_files sections))
      as [c1 [r1 [-> Hc]]]; [norm; intuition lia|]. cbn [bind].
    match goal with |- context [main_loop lines fuel ?c1 ?p1] =>
      destruct (IH c1 p1) as [c' [p' [-> Hp]]]; [norm; intuition lia|] end.
    exists c', p'. split; [reflexivity|]. norm. intuition lia. }
  destruct (l =? "runcmd:")%string.
  { destruct (runcmd_loop_spec fuel (advance (tick c)) (runcmd sections))
      as [c1 [r1 [-> Hc]]]; [norm; intuition lia|]. cbn [bind].
    match goal with |- context [main_loop lines fuel ?c1 ?p1] =>
      destruct (IH c1 p1) as [c' [p' [-> Hp]]]; [norm; intuition lia|] end.
    exists c', p'. split; [reflexivity|]. norm. intuition lia. }
  match goal with |- context [main_loop lines fuel ?c1 ?p1] =>
    destruct (IH c1 p1) as [c' [p' [-> Hp]]]; [norm; intuition lia|] end.
  exists c', p'. split; [reflexivity|]. norm. intuition lia.
Qed.


Ltac exits := left; eexists; intros f; reflexivity.
Ltac goes_on :=
  right; eexists; eexists; (split; [|reflexivity]);
  norm; intuition lia.

Lemma packages_iteration fuel c pkgs :
  loop_pre lines (S fuel) c ->
  iteration_progresses (packages_loop lines) fuel c pkgs.
Proof.
  intros Hpre. unfold iteration_progresses. cbn [packages_loop].
  destruct (idx c <? length lines) eqn:E; [|exits].
  read_line E.
  destruct (startswith l "  " || is_blank l); [goes_on|exits].
Qed.

Lemma runcmd_iteration fuel c cmds :
  loop_pre lines (S fuel) c ->
  iteration_progresses (runcmd_loop lines) fuel c cmds.
Proof.
  intros Hpre. unfold iteration_progresses. cbn [runcmd_loop].
  destruct (idx c <? length lines) eqn:E; [|exits].
  read_line E.
  destruct (startswith l "  " || is_blank l); [|exits].
  destruct (startswith (strip l) "# "); goes_on.
Qed.

Lemma content_iteration fuel c indent acc :
  loop_pre lines (S fuel) c ->
  iteration_progresses
    (fun f c (a : option nat * list string) => content_loop lines f c (fst a) (snd a))
    fuel c (indent, acc).
Proof.
  intros Hpre. unfold iteration_progresses. cbn [content_loop fst snd].
  destruct (idx c <? length lines) eqn:E; [|exits].
  read_line E.
  destruct (has_indent (detect_indent indent l) l && (0 <? String.length l)).
  { right. eexists.
    exists (detect_indent indent l,
            acc +++ [drop (indent_width (detect_indent indent l)) l]).
    split; [|reflexivity]. norm. lia. }
  destruct (is_blank l); [|exits].
  destruct (next_line_indented_total (tick c) (detect_indent indent l)) as [b Hb].
  rewrite Hb. cbn [bind]. destruct b; [|exits].
  right. eexists. exists (detect_indent indent l, acc +++ [""]).
  split; [|reflexivity]. norm. lia.
Qed.

Lemma entry_iteration fuel c entry :
  loop_pre lines (S fuel) c ->
  iteration_progresses (entry_loop lines) fuel c entry.
Proof.
  intros Hpre. unfold iteration_progresses. cbn [entry_loop].
  destruct (idx c <? length lines) eqn:E; [|exits].
  read_line E.
  destruct (entry_ends_total l) as [stop ->]. cbn [bind].
  destruct stop; [exits|].
  destruct (startswith (strip l) "owner:") eqn:Fo.
  { destruct (field_value "owner:" _ ltac:(discriminate) Fo) as [v ->]. cbn [bind].
    goes_on. }
  destruct (startswith (strip l) "permissions:") eqn:Fp.
  { destruct (field_value "permissions:" _ ltac:(discriminate) Fp) as [v ->]. cbn [bind].
    goes_on. }
  destruct (startswith (strip l) "content:") eqn:Fc; [|goes_on].
  destruct (content_loop_spec fuel (advance (tick c)) None [])
    as [c1 [cl [Hc Hp]]]; [norm; intuition lia|].
  right. exists c1. eexists. split; [norm; intuition lia|].
  rewrite Hc. reflexivity.
Qed.

Lemma write_files_iteration fuel c files :
  loop_pre lines (S fuel) c ->
  iteration_progresses (write_files_loop lines) fuel c files.
Proof.
  intros Hpre. unfold iteration_progresses. cbn [write_files_loop].
  destruct (idx c <? length lines) eqn:E; [|exits].
  read_line E.
  destruct (section_ends_total l) as [stop ->]. cbn [bind].
  destruct stop; [exits|].
  destruct ((strip l =? "")%string || startswith (strip l) "#"); [goes_on|].
  destruct (startswith (strip l) "- path:") eqn:Fp; [|goes_on].
  destruct (path_value _ Fp) as [v ->]. cbn [bind].
  match goal with |- context [entry_loop lines fuel ?c1 ?e1] =>
    destruct (entry_loop_spec fuel c1 e1) as [c1' [e1' [Hc Hp]]];
      [norm; intuition lia|] end.
  right. exists c1'. eexists. split; [norm; intuition lia|].
  rewrite Hc. reflexivity.
Qed.

Lemma main_iteration fuel c sections :
  loop_pre lines (S fuel) c ->
  iteration_progresses (main_loop lines) fuel c sections.
Proof.
  intros Hpre. unfold iteration_progresses. cbn [main_loop].
  destruct (idx c <? length lines) eqn:E; [|exits].
  read_line E.
  destruct (startswith l "ssh_pwauth:"); [goes_on|].
  destruct (l =? "packages:")%string.
  { destruct (packages_loop_spec fuel (advance (tick c)) (packages sections))
      as [c1 [r1 [Hc Hp]]]; [norm; intuition lia|].
    right. exists c1. eexists. split; [norm; intuition lia|].
    rewrite Hc. reflexivity. }
  destruct (l =? "write_files:")%string.
  { destruct (write_files_loop_spec fuel (advance (tick c)) (write_files sections))
      as [c1 [r1 [Hc Hp]]]; [norm; intuition lia|].
    right. exists c1. eexists. split; [norm; intuition lia|].
    rewrite Hc. reflexivity. }
  destruct (l =? "runcmd:")%string; [|goes_on].
  destruct (runcmd_loop_spec fuel (advance (tick c)) (runcmd sections))
    as [c1 [r1 [Hc Hp]]]; [norm; intuition lia|].
  right. exists c1. eexists. split; [norm; intuition lia|].
  rewrite Hc. reflexivity.
Qed.

End ScannerFacts.

Lemma start_pre (lines : list string) :
  loop_pre lines (S (length lines)) (mkCursor 0 []).
Proof. unfold loop_pre. cbn [idx visited descending]. intuition lia. Qed.

Lemma scan_lines_spec (lines : list string) :
  exists c sections,
    main_loop lines (S (length lines)) (mkCursor 0 []) initial_sections
    = Done (c, sections)
    /\ idx c = length lines
    /\ descending (idx c) (visited c)
    /\ iterations c <= 2 * length lines.
Proof.
  destruct (main_loop_spec lines (S (length lines)) (mkCursor 0 [])
                           initial_sections (start_pre lines))
    as [c [s [E [[_ [_ [D B]]] F]]]].
  exists c, s. repeat split; auto.
  unfold iterations in *. cbn [idx visited length] in B. lia.
Qed.

(** C8. Parsing and generation are total: on every sequence of lines
    the scan returns a Config (it neither raises [IndexError] nor runs
    out of fuel), and for every text and username the conversion
    returns the script generated from the parsed Config. *)
Theorem parse_and_generate_total :
  (forall lines : list string,
      exists c sections,
        main_loop lines (S (length lines)) (mkCursor 0 []) initial_sections
        = Done (c, sections))
  /\ (forall text user : string,
         exists sections,
           parse_cloud_init text = Done sections
           /\ convert text user = Done (generate_bash sections user)).
Proof.
  split.
  - intros lines.
    destruct (scan_lines_spec lines) as [c [s [E _]]]. eauto.
  - intros text user.
    destruct (scan_lines_spec (split nl text)) as [c [s [E _]]].
    exists s. unfold convert, parse_cloud_init, scan.
    rewrite E. cbn [bind snd]. split; reflexivity.
Qed.

(** C9. The scan moves forward only and terminates within a number of
    steps linear in the number of lines.  From the start it ends at the
    index [length lines], the indices at which loop bodies ran never
    decrease, and at most [2 * length lines] loop bodies run in total.
    Each loop, entered at any index in range, leaves at an index that
    is not smaller and in range, having run at most one body that did
    not advance the index for itself and for each loop nested in it.
    And each pass through the body of each loop either leaves the loop
    or goes round again from a larger index. *)
Theorem scanner_progress (lines : list string) :
  (exists c sections,
      main_loop lines (S (length lines)) (mkCursor 0 []) initial_sections
      = Done (c, sections)
      /\ idx c = length lines
      /\ descending (idx c) (visited c)
      /\ iterations c <= 2 * length lines)
  /\ (forall fuel c, loop_pre lines fuel c ->
        (forall pkgs, exists c' r,
            packages_loop lines fuel c pkgs = Done (c', r)
            /\ loop_post lines 1 0 c c')
        /\ (forall cmds, exists c' r,
               runcmd_loop lines fuel c cmds = Done (c', r)
               /\ loop_post lines 1 0 c c')
        /\ (forall indent acc, exists c' r,
               content_loop lines fuel c indent acc = Done (c', r)
               /\ loop_post lines 1 1 c c')
        /\ (forall entry, exists c' r,
               entry_loop lines fuel c entry = Done (c', r)
               /\ loop_post lines 2 1 c c')
        /\ (forall files, exists c' r,
               write_files_loop lines fuel c files = Done (c', r)
               /\ loop_post lines 2 1 c c')
        /\ (forall sections, exists c' r,
               main_loop lines fuel c sections = Done (c', r)
               /\ loop_post lines 2 0 c c' /\ idx c' = length lines))
  /\ (forall fuel c, loop_pre lines (S fuel) c ->
        (forall pkgs, iteration_progresses (packages_loop lines) fuel c pkgs)
        /\ (forall cmds, iteration_progresses (runcmd_loop lines) fuel c cmds)
        /\ (forall indent acc,
               iteration_progresses
                 (fun f c (a : option nat * list string) =>
                    content_loop lines f c (fst a) (snd a))
                 fuel c (indent, acc))
        /\ (forall entry, iteration_progresses (entry_loop lines) fuel c entry)
        /\ (forall files,
               iteration_progresses (write_files_loop lines) fuel c files)
        /\ (forall sections,
               iteration_progresses (main_loop lines) fuel c sections)).
Proof.
  split; [apply scan_lines_spec|]. split.
  - intros fuel c Hpre. repeat split; intros.
    + apply packages_loop_spec; assumption.
    + apply runcmd_loop_spec; assumption.
    + apply content_loop_spec; assumption.
    + apply entry_loop_spec; assumption.
    + apply write_files_loop_spec; assumption.
    + apply main_loop_spec; assumption.
  - intros fuel c Hpre. repeat split; intros.
    + apply packages_iteration; assumption.
    + apply runcmd_iteration; assumption.
    + apply content_iteration; assumption.
    + apply entry_iteration; assumption.
    + apply write_files_iteration; assumption.
    + apply main_iteration; assumption.
Qed.

(** The scanner entered in the middle of a four-line document. *)
Lemma scanner_progress_witness :
  let lines := ["runcmd:"; "  - a"; "write_files:"; "  - path: /x"] in
  loop_pre lines 4 (mkCursor 1 [0])
  /\ (exists c' r,
         runcmd_loop lines 4 (mkCursor 1 [0]) [] = Done (c', r)
         /\ loop_post lines 1 0 (mkCursor 1 [0]) c')
  /\ iteration_progresses (runcmd_loop lines) 3 (mkCursor 1 [0]) [].
Proof.
  intros lines.
  assert (Hpre : loop_pre lines 4 (mkCursor 1 [0])).
  { unfold loop_pre, lines. cbn [idx visited descending length]. lia. }
  destruct (scanner_progress lines) as [_ [Hloops Hsteps]].
  split; [exact Hpre|]. split.
  - exact (proj1 (proj2 (Hloops 4 (mkCursor 1 [0]) Hpre)) []).
  - exact (proj1 (proj2 (Hsteps 3 (mkCursor 1 [0]) Hpre)) []).
Defined.

(** ** The round trip *)

(** C1. The round-trip scenario: the document parses to the expected
    Config, and the script generated for the user [deploy] is, line by
    line, the header, the install lines with [nginx git], [mkdir -p
    /etc], the heredoc writing [hello] and [world] to [/etc/motd], the
    chmod and chown lines, the SSH hardening block and the run-command
    section with [echo done] unchanged. *)
Theorem round_trip :
  parse_cloud_init round_trip_doc = Done round_trip_config
  /\ convert round_trip_doc "deploy" = Done (join nl round_trip_script)
  /\ script_lines (generate_bash round_trip_config "deploy") = round_trip_script
  /\ generate_lines round_trip_config "deploy"
     = header
       +++ ["# System packages"; "apt-get update -y"; "apt-get upgrade -y";
            "apt-get install -y nginx git"; ""]
       +++ ["mkdir -p /etc"; "cat > /etc/motd << 'FILEEOF'";
            "hello" ++ nl ++ "world"; "FILEEOF";
            "chmod 0644 /etc/motd"; "chown root:root /etc/motd"; ""]
       +++ ssh_hardening_block
       +++ ["# Run commands"; "echo done"; ""].
Proof.
  repeat split; vm_compute; reflexivity.
Qed.

(** ** The generator *)

Lemma file_block_skipped (user : string) (entry : FileEntry) :
  contains (path entry) "sshd_config" = true -> file_block user entry = [].
Proof. intros H. unfold file_block. rewrite H. reflexivity. Qed.

Lemma file_block_emitted (user : string) (entry : FileEntry) :
  contains (path entry) "sshd_config" = false ->
  file_block user entry
  = emit_file (rewrite_path user (path entry))
              (rewrite_owner user (owner entry))
              (permissions entry)
              (rewrite_content user (content entry)).
Proof. intros H. unfold file_block. rewrite H. reflexivity. Qed.

(** C2. An entry of [write_files] whose path contains [sshd_config]
    is skipped whatever [ssh_pwauth] is: its block is empty, and the
    lines and the script generated are those generated for the Config
    without that entry. *)
Theorem sshd_config_entries_skipped :
  forall (sections : Config) (user : string)
         (before after : list FileEntry) (entry : FileEntry),
    write_files sections = before +++ entry :: after ->
    contains (path entry) "sshd_config" = true ->
    file_block user entry = []
    /\ generate_lines sections user
       = generate_lines (set_write_files sections (before +++ after)) user
    /\ generate_bash sections user
       = generate_bash (set_write_files sections (before +++ after)) user.
Proof.
  intros sections user before after entry Hw Hc.
  assert (Hl : generate_lines sections user
               = generate_lines (set_write_files sections (before +++ after)) user).
  { unfold generate_lines, packages_section, ssh_section, runcmd_section.
    cbn [set_write_files packages write_files runcmd ssh_pwauth].
    rewrite Hw, !flat_map_app. cbn [flat_map].
    rewrite (file_block_skipped user entry Hc). reflexivity. }
  split; [apply file_block_skipped; exact Hc|].
  split; [exact Hl|].
  unfold generate_bash. rewrite Hl. reflexivity.
Qed.

(** A Config with password logins allowed, one ordinary file and one
    [sshd_config] file. *)
Lemma sshd_config_entries_skipped_witness :
  let motd := mkFileEntry "/etc/motd" "root:root" "0644" "hi" in
  let sshd := mkFileEntry "/etc/ssh/sshd_config" "root:root" "0600" "PermitRootLogin yes" in
  let sections := mkConfig [] [motd; sshd] ["true"] true in
  file_block "deploy" sshd = []
  /\ generate_lines sections "deploy"
     = generate_lines (set_write_files sections ([motd] +++ [])) "deploy"
  /\ generate_bash sections "deploy"
     = generate_bash (set_write_files sections ([motd] +++ [])) "deploy".
Proof.
  intros motd sshd sections.
  apply (sshd_config_entries_skipped sections "deploy" [motd] [] sshd);
    reflexivity.
Defined.

(** C4. For the user [ubuntu] nothing is rewritten: the four
    substitutions are the identity, and the lines generated carry the
    path, owner, content and commands of the Config as they are. *)
Theorem default_user_rewrites_nothing :
  forall sections : Config,
    (forall s : string,
        rewrite_path "ubuntu" s = s /\ rewrite_owner "ubuntu" s = s
        /\ rewrite_content "ubuntu" s = s /\ rewrite_cmd "ubuntu" s = s)
    /\ generate_lines sections "ubuntu"
       = header
         +++ packages_section sections
         +++ flat_map (fun e =>
                         if contains (path e) "sshd_config" then []
                         else emit_file (path e) (owner e) (permissions e) (content e))
                      (write_files sections)
         +++ ssh_section sections
         +++ match runcmd sections with
             | [] => []
             | _ :: _ => "# Run commands" :: runcmd sections +++ [""]
             end.
Proof.
  intros sections. split; [intros s; repeat split|].
  unfold generate_lines, runcmd_section.
  assert (Hf : flat_map (file_block "ubuntu") (write_files sections)
               = flat_map (fun e =>
                             if contains (path e) "sshd_config" then []
                             else emit_file (path e) (owner e) (permissions e) (content e))
                          (write_files sections)).
  { apply flat_map_ext. intros e. reflexivity. }
  assert (Hm : map (rewrite_cmd "ubuntu") (runcmd sections) = runcmd sections).
  { rewrite <- (map_id (runcmd sections)) at 2.
    apply map_ext. intros a. reflexivity. }
  rewrite Hf, Hm. reflexivity.
Qed.

(** C10. The permissions of an entry are never rewritten: for every
    user, the block of an entry that is not skipped is written from
    the rewritten path, owner and content and from the permissions as
    stored, and its chmod line, among the lines generated, carries the
    stored permissions. *)
Theorem permissions_never_rewritten :
  forall (sections : Config) (user : string) (entry : FileEntry),
    In entry (write_files sections) ->
    contains (path entry) "sshd_config" = false ->
    file_block user entry
    = emit_file (rewrite_path user (path entry))
                (rewrite_owner user (owner entry))
                (permissions entry)
                (rewrite_content user (content entry))
    /\ In ("chmod " ++ permissions entry ++ " " ++ rewrite_path user (path entry))
          (file_block user entry)
    /\ In ("chmod " ++ permissions entry ++ " " ++ rewrite_path user (path entry))
          (generate_lines sections user).
Proof.
  intros sections user entry Hin Hc.
  assert (Hb : In ("chmod " ++ permissions entry ++ " " ++ rewrite_path user (path entry))
                  (file_block user entry)).
  { rewrite (file_block_emitted user entry Hc). unfold emit_file.
    apply in_or_app. right. cbn [In]. auto. }
  split; [apply file_block_emitted; exact Hc|].
  split; [exact Hb|].
  unfold generate_lines.
  apply in_or_app. right. apply in_or_app. right. apply in_or_app. left.
  apply in_flat_map. exists entry. split; assumption.
Qed.

(** An entry of the user [ubuntu] whose permissions read [ubuntu],
    generated for the user [deploy]. *)
Lemma permissions_never_rewritten_witness :
  let e := mkFileEntry "/home/ubuntu/.zshrc" "ubuntu:ubuntu" "ubuntu" "cd /home/ubuntu" in
  file_block "deploy" e
  = ["mkdir -p /home/deploy";
     "cat > /home/deploy/.zshrc << 'FILEEOF'";
     "cd /home/deploy";
     "FILEEOF";
     "chmod ubuntu /home/deploy/.zshrc";
     "chown deploy:deploy /home/deploy/.zshrc";
     ""]
  /\ In "chmod ubuntu /home/deploy/.zshrc" (file_block "deploy" e)
  /\ In "chmod ubuntu /home/deploy/.zshrc"
        (generate_lines (mkConfig [] [e] [] true) "deploy").
Proof.
  intros e.
  apply (permissions_never_rewritten (mkConfig [] [e] [] true) "deploy" e).
  - cbn [write_files In]. left. reflexivity.
  - reflexivity.
Defined.

(** ** The SSH hardening block *)

Lemma split_from_nl_app (x : string) : forall cur y,
  split_from nl None 0 cur (x ++ nl ++ y)
  = split_from nl None 0 cur x +++ split_from nl None 0 "" y.
Proof.
  induction x as [|c x IH]; intros cur y.
  - reflexivity.
  - cbn [append split_from may_split andb].
    change (startswith (String c (x ++ nl ++ y)) nl)
      with (Ascii.eqb c (ascii_of_nat 10) && true).
    change (startswith (String c x) nl)
      with (Ascii.eqb c (ascii_of_nat 10) && true).
    destruct (Ascii.eqb c (ascii_of_nat 10)); cbn [andb spend];
      rewrite IH; reflexivity.
Qed.

Lemma script_lines_join (l : list string) :
  l <> [] -> script_lines (join nl l) = flat_map (split nl) l.
Proof.
  induction l as [|x l IH]; [congruence|]. intros _.
  destruct l as [|y l].
  - cbn [join flat_map]. rewrite app_nil_r. reflexivity.
  - change (join nl (x :: y :: l)) with (x ++ nl ++ join nl (y :: l)).
    unfold script_lines, split in *.
    rewrite split_from_nl_app.
    cbn [flat_map]. f_equal. apply IH. discriminate.
Qed.

Lemma hardening_block_once (post : list string) :
  occurrences ssh_hardening_block (ssh_hardening_block +++ post)
  = S (occurrences ssh_hardening_block post).
Proof. reflexivity. Qed.

Lemma hardening_block_no_crossing (s post : list string) :
  starts_with_block ssh_hardening_block ((s +++ [""]) +++ ssh_hardening_block +++ post)
  = starts_with_block ssh_hardening_block ((s +++ [""]) +++ post).
Proof.
  do 8 (destruct s as [|? s]; [reflexivity|]). reflexivity.
Qed.

Lemma hardening_block_inserted (s post : list string) :
  occurrences ssh_hardening_block ((s +++ [""]) +++ ssh_hardening_block +++ post)
  = S (occurrences ssh_hardening_block ((s +++ [""]) +++ post)).
Proof.
  induction s as [|x s IH].
  - change (occurrences ssh_hardening_block (([] +++ [""]) +++ ssh_hardening_block +++ post))
      with (occurrences ssh_hardening_block (ssh_hardening_block +++ post)).
    rewrite hardening_block_once. reflexivity.
  - change (((x :: s) +++ [""]) +++ ssh_hardening_block +++ post)
      with (x :: ((s +++ [""]) +++ ssh_hardening_block +++ post)).
    change (((x :: s) +++ [""]) +++ post) with (x :: ((s +++ [""]) +++ post)).
    cbn [occurrences].
    rewrite IH.
    pose proof (hardening_block_no_crossing (x :: s) post) as H.
    change (((x :: s) +++ [""]) +++ ssh_hardening_block +++ post)
      with (x :: ((s +++ [""]) +++ ssh_hardening_block +++ post)) in H.
    change (((x :: s) +++ [""]) +++ post) with (x :: ((s +++ [""]) +++ post)) in H.
    rewrite H. lia.
Qed.

Lemma ends_blank_app (a b : list string) :
  ends_blank a -> b = [] \/ ends_blank b -> ends_blank (a +++ b).
Proof.
  intros Ha [-> | [s ->]].
  - rewrite app_nil_r. exact Ha.
  - exists (a +++ s). rewrite app_assoc. reflexivity.
Qed.

Lemma file_block_ends_blank (user : string) (entry : FileEntry) :
  file_block user entry = [] \/ ends_blank (file_block user entry).
Proof.
  unfold file_block.
  destruct (contains (path entry) "sshd_config"); [left; reflexivity|right].
  unfold emit_file.
  match goal with |- ends_blank (?m +++ [?a; ?b; ?c; ?d; ?e; _]) =>
    exists (m +++ [a; b; c; d; e]) end.
  rewrite <- app_assoc. reflexivity.
Qed.

Lemma file_blocks_end_blank (user : string) (files : list FileEntry) :
  flat_map (file_block user) files = []
  \/ ends_blank (flat_map (file_block user) files).
Proof.
  induction files as [|e files IH]; [left; reflexivity|].
  cbn [flat_map].
  destruct (file_block_ends_blank user e) as [-> | He].
  - exact IH.
  - right. apply ends_blank_app; assumption.
Qed.

Lemma lines_before_ssh_end_blank (sections : Config) (user : string) :
  ends_blank (flat_map (split nl) (lines_before_ssh sections user)).
Proof.
  assert (H : ends_blank (lines_before_ssh sections user)).
  { unfold lines_before_ssh.
    apply ends_blank_app.
    - exists ["#!/bin/bash"; "set -x"; "export DEBIAN_FRONTEND=noninteractive"].
      reflexivity.
    - assert (Hf := file_blocks_end_blank user (write_files sections)).
      unfold packages_section. destruct (packages sections) as [|p ps].
      + exact Hf.
      + right. apply ends_blank_app; [|exact Hf].
        eexists [_; _; _; _]. reflexivity. }
  destruct H as [s ->].
  exists (flat_map (split nl) s). rewrite flat_map_app. reflexivity.
Qed.

Lemma generate_lines_sections (sections : Config) (user : string) :
  generate_lines sections user
  = lines_before_ssh sections user
    +++ ssh_section sections
    +++ runcmd_section user sections.
Proof.
  unfold generate_lines, lines_before_ssh. rewrite <- !app_assoc. reflexivity.
Qed.

Lemma generated_script_lines (sections : Config) (user : string) :
  script_lines (generate_bash sections user)
  = flat_map (split nl) (lines_before_ssh sections user)
    +++ flat_map (split nl) (ssh_section sections)
    +++ flat_map (split nl) (runcmd_section user sections).
Proof.
  unfold generate_bash. rewrite script_lines_join.
  - rewrite generate_lines_sections, !flat_map_app. reflexivity.
  - unfold generate_lines, header. discriminate.
Qed.

Lemma hardening_block_adds_one (sections : Config) (user : string) :
  occurrences ssh_hardening_block
    (script_lines (generate_bash (set_ssh_pwauth sections false) user))
  = S (occurrences ssh_hardening_block
         (script_lines (generate_bash (set_ssh_pwauth sections true) user))).
Proof.
  rewrite !generated_script_lines.
  change (lines_before_ssh (set_ssh_pwauth sections false) user)
    with (lines_before_ssh sections user).
  change (lines_before_ssh (set_ssh_pwauth sections true) user)
    with (lines_before_ssh sections user).
  change (runcmd_section user (set_ssh_pwauth sections false))
    with (runcmd_section user sections).
  change (runcmd_section user (set_ssh_pwauth sections true))
    with (runcmd_section user sections).
  destruct (lines_before_ssh_end_blank sections user) as [s ->].
  change (flat_map (split nl) (ssh_section (set_ssh_pwauth sections false)))
    with ssh_hardening_block.
  change (flat_map (split nl) (ssh_section (set_ssh_pwauth sections true)))
    with (@nil string).
  cbn [app]. apply hardening_block_inserted.
Qed.

Lemma no_marker_no_block (l : list string) :
  ~ In "# SSH hardening" l -> occurrences ssh_hardening_block l = 0.
Proof.
  induction l as [|x l IH]; intros H; [reflexivity|].
  cbn [occurrences]. rewrite IH by (intros F; apply H; right; exact F).
  cbn [ssh_hardening_block starts_with_block].
  destruct (String.eqb_spec "# SSH hardening" x) as [E|E].
  - exfalso. apply H. left. symmetry. exact E.
  - reflexivity.
Qed.

Lemma main_loop_keeps_pwauth (lines : list string) :
  (forall l, In l lines -> startswith l "ssh_pwauth:" = false) ->
  forall fuel c sections c' sections',
    main_loop lines fuel c sections = Done (c', sections') ->
    ssh_pwauth sections' = ssh_pwauth sections.
Proof.
  intros Hno. induction fuel as [|fuel IH]; intros c s c' s' H; [discriminate|].
  cbn [main_loop] in H.
  destruct (idx c <? length lines); [|injection H as _ <-; reflexivity].
  cbn [idx tick] in H. unfold item_at in H.
  destruct (nth_error lines (idx c)) as [l|] eqn:El; [|discriminate].
  cbn [bind] in H.
  rewrite (Hno l (nth_error_In _ _ El)) in H.
  destruct (l =? "packages:")%string.
  { destruct (packages_loop lines fuel _ _) as [[c1 r]| |]; try discriminate.
    cbn [bind] in H. apply IH in H. exact H. }
  destruct (l =? "write_files:")%string.
  { destruct (write_files_loop lines fuel _ _) as [[c1 r]| |]; try discriminate.
    cbn [bind] in H. apply IH in H. exact H. }
  destruct (l =? "runcmd:")%string.
  { destruct (runcmd_loop lines fuel _ _) as [[c1 r]| |]; try discriminate.
    cbn [bind] in H. apply IH in H. exact H. }
  apply IH in H. exact H.
Qed.

(** C3, amended. The SSH section of the generator is a constant: the
    title, the opening line of a heredoc onto the drop-in file, the
    four directives [PasswordAuthentication no],
    [KbdInteractiveAuthentication no], [PubkeyAuthentication yes] and
    [PermitRootLogin prohibit-password], the closing delimiter and an
    empty line.  The lines generated, and the lines of the script, are
    the part before the SSH section, then this block if [ssh_pwauth]
    is false and nothing if it is true, then the run-command section,
    and the two outer parts do not depend on [ssh_pwauth].  The script
    for [ssh_pwauth] false holds exactly one more copy of the block
    than the script for [ssh_pwauth] true, whatever the files and
    commands hold; when no line of the latter is the block's title,
    the block occurs exactly once if [ssh_pwauth] is false and not at
    all if it is true.  A document with no line starting with
    [ssh_pwauth:] parses, and to [ssh_pwauth] true. *)
Theorem hardening_block_iff_pwauth_off :
  forall (sections : Config) (user : string),
    ssh_hardening_block
    = ["# SSH hardening";
       "cat > /etc/ssh/sshd_config.d/99-hardening.conf << 'SSHCONF'";
       "PasswordAuthentication no";
       "KbdInteractiveAuthentication no";
       "PubkeyAuthentication yes";
       "PermitRootLogin prohibit-password";
       "SSHCONF";
       ""]
    /\ generate_lines sections user
       = lines_before_ssh sections user
         +++ (if ssh_pwauth sections then [] else ssh_hardening_block)
         +++ runcmd_section user sections
    /\ script_lines (generate_bash sections user)
       = flat_map (split nl) (lines_before_ssh sections user)
         +++ (if ssh_pwauth sections then [] else ssh_hardening_block)
         +++ flat_map (split nl) (runcmd_section user sections)
    /\ (forall b : bool,
           lines_before_ssh (set_ssh_pwauth sections b) user
           = lines_before_ssh sections user
           /\ runcmd_section user (set_ssh_pwauth sections b)
              = runcmd_section user sections)
    /\ occurrences ssh_hardening_block
         (script_lines (generate_bash (set_ssh_pwauth sections false) user))
       = S (occurrences ssh_hardening_block
              (script_lines (generate_bash (set_ssh_pwauth sections true) user)))
    /\ (~ In "# SSH hardening"
             (script_lines (generate_bash (set_ssh_pwauth sections true) user)) ->
        occurrences ssh_hardening_block (script_lines (generate_bash sections user))
        = if ssh_pwauth sections then 0 else 1)
    /\ (forall text : string,
           (forall l, In l (split nl text) -> startswith l "ssh_pwauth:" = false) ->
           exists parsed,
             parse_cloud_init text = Done parsed /\ ssh_pwauth parsed = true).
Proof.
  intros sections user.
  split; [reflexivity|].
  split.
  { rewrite generate_lines_sections. unfold ssh_section.
    destruct (ssh_pwauth sections); reflexivity. }
  split.
  { rewrite generated_script_lines. unfold ssh_section.
    destruct (ssh_pwauth sections); reflexivity. }
  split; [intros b; split; reflexivity|].
  split; [apply hardening_block_adds_one|].
  split.
  - intros Hno.
    pose proof (hardening_block_adds_one sections user) as Hone.
    rewrite (no_marker_no_block _ Hno) in Hone.
    destruct sections as [p w r [|]]; cbn [ssh_pwauth].
    + apply no_marker_no_block. exact Hno.
    + exact Hone.
  - intros text Hno.
    destruct (scan_lines_spec (split nl text)) as [c [s [E _]]].
    exists s. unfold parse_cloud_init, scan. rewrite E. cbn [bind snd].
    split; [reflexivity|].
    apply (main_loop_keeps_pwauth _ Hno) in E. exact E.
Qed.

(** A Config with password logins off, and a document without the
    [ssh_pwauth] key. *)
Lemma hardening_block_iff_pwauth_off_witness :
  occurrences ssh_hardening_block
    (script_lines (generate_bash (mkConfig ["git"] [] ["echo done"] false) "deploy"))
  = 1
  /\ exists parsed,
       parse_cloud_init ("packages:" ++ nl ++ "  - git") = Done parsed
       /\ ssh_pwauth parsed = true.
Proof.
  destruct (hardening_block_iff_pwauth_off
              (mkConfig ["git"] [] ["echo done"] false) "deploy")
    as [_ [_ [_ [_ [_ [Hcount Hkey]]]]]].
  split.
  - apply Hcount. vm_compute. intuition discriminate.
  - apply (Hkey ("packages:" ++ nl ++ "  - git")).
    intros l Hl. vm_compute in Hl.
    destruct Hl as [<- | [<- | []]]; reflexivity.
Defined.

(** The claim as first stated fails when the input itself supplies the
    lines of the block: [repeated_block_doc] has no [ssh_pwauth] key,
    so it parses to [ssh_pwauth] true, yet the script holds the block,
    once, in its run-command section; with the line [ssh_pwauth: false]
    added the script holds it twice. *)
Lemma repeated_block_in_runcmd :
  parse_cloud_init repeated_block_doc
  = Done (mkConfig [] [] repeated_block_cmds true)
  /\ occurrences ssh_hardening_block
       (script_lines (generate_bash (mkConfig [] [] repeated_block_cmds true) "ubuntu"))
     = 1
  /\ parse_cloud_init (repeated_block_doc ++ nl ++ "ssh_pwauth: false")
     = Done (mkConfig [] [] repeated_block_cmds false)
  /\ occurrences ssh_hardening_block
       (script_lines (generate_bash (mkConfig [] [] repeated_block_cmds false) "ubuntu"))
     = 2.
Proof. repeat split; vm_compute; reflexivity. Qed.

(** ** The content block literal *)

Lemma content_field_not_other (s : string) :
  startswith s "content:" = true ->
  startswith s "owner:" = false /\ startswith s "permissions:" = false.
Proof.
  destruct s as [|a s]; [discriminate|].
  cbn [startswith]. intros H.
  apply andb_true_iff in H. destruct H as [H _].
  apply Ascii.eqb_eq in H. subst a. split; reflexivity.
Qed.

Lemma has_indent_nonempty (n : nat) (cl : string) :
  has_indent (Some (S n)) cl = true -> (0 <? String.length cl) = true.
Proof. destruct cl; [discriminate|reflexivity]. Qed.

(** C6, amended. Inside a block literal whose indentation [S n] is
    established: a line that starts with that many spaces, a
    whitespace-only one included, is collected with the indentation
    stripped, whatever follows it; a blank line that does not start
    with that many spaces is collected as an empty line when the next
    line starts with that many spaces, and ends the block without
    being collected when the next line does not or the input ends; any
    other line ends the block; and the content of the entry is the
    collected lines joined by newlines, with trailing whitespace
    stripped. *)
Theorem content_block_rule :
  forall (lines : list string) (fuel : nat) (c : cursor) (n : nat)
         (acc : list string) (cl : string),
    nth_error lines (idx c) = Some cl ->
    (has_indent (Some (S n)) cl = true ->
     content_loop lines (S fuel) c (Some (S n)) acc
     = content_loop lines fuel (advance (tick c)) (Some (S n))
                    (acc +++ [drop (S n) cl]))
    /\ (has_indent (Some (S n)) cl = false -> is_blank cl = true ->
        content_loop lines (S fuel) c (Some (S n)) acc
        = if next_has_indent lines c (S n)
          then content_loop lines fuel (advance (tick c)) (Some (S n)) (acc +++ [""])
          else Done (tick c, acc))
    /\ (has_indent (Some (S n)) cl = false -> is_blank cl = false ->
        content_loop lines (S fuel) c (Some (S n)) acc = Done (tick c, acc))
    /\ (forall entry : FileEntry,
           entry_ends cl = Done false ->
           startswith (strip cl) "content:" = true ->
           entry_loop lines (S fuel) c entry
           = ('(c', content_lines) <- content_loop lines fuel (advance (tick c)) None [] ;;
              entry_loop lines fuel c'
                         (set_content entry (rstrip (join nl content_lines))))).
Proof.
  intros lines fuel c n acc cl Hcl.
  assert (Hlt : (idx c <? length lines) = true).
  { apply Nat.ltb_lt. apply nth_error_Some. congruence. }
  assert (Hit : item_at lines (idx c) = Done cl).
  { unfold item_at. rewrite Hcl. reflexivity. }
  repeat split.
  - intros Hi. cbn [content_loop]. rewrite Hlt. cbn [idx tick]. rewrite Hit.
    cbn [bind detect_indent indent_width]. rewrite Hi, (has_indent_nonempty n cl Hi).
    reflexivity.
  - intros Hi Hb. cbn [content_loop]. rewrite Hlt. cbn [idx tick]. rewrite Hit.
    cbn [bind detect_indent indent_width]. rewrite Hi, Hb. cbn [andb].
    unfold next_line_indented, next_has_indent.
    change (idx (tick c)) with (idx c).
    destruct (S (idx c) <? length lines) eqn:E.
    + unfold item_at. destruct (nth_error lines (S (idx c))) as [l|] eqn:El.
      * reflexivity.
      * apply nth_error_None in El. apply Nat.ltb_lt in E. lia.
    + apply Nat.ltb_ge in E. apply nth_error_None in E. rewrite E. reflexivity.
  - intros Hi Hb. cbn [content_loop]. rewrite Hlt. cbn [idx tick]. rewrite Hit.
    cbn [bind detect_indent indent_width]. rewrite Hi, Hb. reflexivity.
  - intros entry He Hc.
    destruct (content_field_not_other _ Hc) as [Ho Hp].
    cbn [entry_loop]. rewrite Hlt. cbn [idx tick]. rewrite Hit.
    cbn [bind]. rewrite He. cbn [bind]. rewrite Ho, Hp, Hc. reflexivity.
Qed.

(** A block literal with an empty line inside, entered at the empty
    line and at the [content:] line. *)
Lemma content_block_rule_witness :
  let lines := ["    content: |"; "      a"; ""; "      b"; "next:"] in
  content_loop lines 4 (mkCursor 2 []) (Some 6) ["a"]
  = Done (mkCursor 4 [4; 3; 2], ["a"; ""; "b"])
  /\ entry_loop lines 6 (mkCursor 0 []) (mkFileEntry "/x" "root:root" "0644" "")
     = Done (mkCursor 4 [4; 4; 3; 2; 1; 0],
             mkFileEntry "/x" "root:root" "0644" ("a" ++ nl ++ nl ++ "b")).
Proof.
  intros lines. split.
  - rewrite (proj1 (proj2 (content_block_rule lines 3 (mkCursor 2 []) 5 ["a"] ""
                                              eq_refl)) eq_refl eq_refl).
    reflexivity.
  - rewrite (proj2 (proj2 (proj2 (content_block_rule lines 5 (mkCursor 0 []) 0 []
                                                     "    content: |" eq_refl)))
                   (mkFileEntry "/x" "root:root" "0644" "") eq_refl eq_refl).
    reflexivity.
Defined.

(** The claim as first stated fails for a whitespace-only line that
    carries the indentation of the block: in [padded_blank_doc] the
    line of six spaces is blank and is followed by an empty line, which
    lacks the indentation, yet the block does not end there; the line
    is kept and the block runs on to [world]. *)
Lemma padded_blank_line_kept :
  let lines := split nl padded_blank_doc in
  nth_error lines 4 = Some (spaces 6)
  /\ is_blank (spaces 6) = true
  /\ next_has_indent lines (mkCursor 4 []) 6 = false
  /\ content_loop lines 4 (mkCursor 4 []) (Some 6) ["hello"]
     = Done (mkCursor 7 [6; 5; 4], ["hello"; ""; ""; "world"])
  /\ content_loop lines 4 (mkCursor 4 []) (Some 6) ["hello"]
     <> Done (tick (mkCursor 4 []), ["hello"])
  /\ parse_cloud_init padded_blank_doc
     = Done (mkConfig []
               [mkFileEntry "/etc/motd" "root:root" "0644"
                            ("hello" ++ nl ++ nl ++ nl ++ "world")]
               [] true).
Proof.
  intros lines. repeat split; try reflexivity.
  vm_compute. discriminate.
Qed.

(** ** Quoted commands *)

Lemma list_ascii_app (a b : string) :
  list_ascii_of_string (a ++ b)
  = (list_ascii_of_string a ++ list_ascii_of_string b)%list.
Proof. induction a as [|c a IH]; [reflexivity|]. cbn. rewrite IH. reflexivity. Qed.

Lemma string_of_list_app (a b : list ascii) :
  string_of_list_ascii (a ++ b)%list
  = string_of_list_ascii a ++ string_of_list_ascii b.
Proof. induction a as [|c a IH]; [reflexivity|]. cbn. rewrite IH. reflexivity. Qed.

Lemma endswith_quote (s : string) :
  endswith s "'" = true <-> exists b, s = b ++ "'".
Proof.
  unfold endswith, rev_string. cbn [list_ascii_of_string rev app string_of_list_ascii].
  split.
  - intros H.
    rewrite <- (string_of_list_ascii_of_string s).
    rewrite <- (rev_involutive (list_ascii_of_string s)).
    destruct (rev (list_ascii_of_string s)) as [|a r]; [discriminate|].
    cbn [string_of_list_ascii startswith] in H.
    rewrite andb_true_r in H. apply Ascii.eqb_eq in H. subst a.
    exists (string_of_list_ascii (rev r)).
    cbn [rev]. rewrite string_of_list_app. reflexivity.
  - intros [b ->].
    rewrite list_ascii_app, rev_app_distr. reflexivity.
Qed.

Lemma drop_last_snoc (b : string) (c : ascii) :
  drop_last (b ++ String c "") = b.
Proof.
  induction b as [|a b IH]; [reflexivity|].
  cbn [append drop_last]. rewrite IH.
  destruct b; reflexivity.
Qed.

(** Where the text is wrapped in a pair of quotes the pair is removed,
    and a text other than the lone quote that is not wrapped is left as
    it is. *)
Lemma unquote_spec (t : string) :
  (forall body, wrapped_in_quotes t body -> unquote t = body)
  /\ (t <> "'" -> (forall body, ~ wrapped_in_quotes t body) -> unquote t = t).
Proof.
  unfold wrapped_in_quotes. split.
  - intros body ->. unfold unquote.
    replace (endswith ("'" ++ body ++ "'") "'") with true.
    + cbn [append startswith andb Ascii.eqb Bool.eqb slice_1_m1 drop].
      apply drop_last_snoc.
    + symmetry. apply endswith_quote. exists ("'" ++ body). 
      cbn [append]. reflexivity.
  - intros Hne Hnot. unfold unquote.
    destruct (startswith t "'") eqn:S1; [|reflexivity].
    destruct (endswith t "'") eqn:E1; [|reflexivity].
    exfalso.
    apply endswith_quote in E1. destruct E1 as [b ->].
    destruct b as [|a b].
    + apply Hne. reflexivity.
    + cbn [append startswith] in S1. rewrite andb_true_r in S1.
      apply Ascii.eqb_eq in S1. subst a.
      apply (Hnot b). reflexivity.
Qed.

(** A line of a [runcmd] block whose trimmed form starts with the item
    marker adds the text after the marker, unquoted, as a command. *)
Lemma runcmd_item_step (lines : list string) (fuel : nat) (c : cursor)
      (cmds : list string) (l : string) :
  nth_error lines (idx c) = Some l ->
  startswith (strip l) "- " = true ->
  startswith l "  " || is_blank l = true ->
  runcmd_loop lines (S fuel) c cmds
  = runcmd_loop lines fuel (advance (tick c)) (cmds +++ [unquote (drop 2 (strip l))]).
Proof.
  intros Hl Hs Hb.
  assert (Hlt : (idx c <? length lines) = true).
  { apply Nat.ltb_lt. apply nth_error_Some. congruence. }
  cbn [runcmd_loop]. rewrite Hlt. unfold item_at. rewrite Hl. cbn [bind].
  rewrite Hb, Hs.
  destruct (strip l) as [|a s]; [discriminate|].
  cbn [startswith] in Hs. apply andb_true_iff in Hs. destruct Hs as [Ha _].
  apply Ascii.eqb_eq in Ha. subst a. reflexivity.
Qed.

Lemma lone_quote_not_wrapped (body : string) : ~ wrapped_in_quotes "'" body.
Proof.
  unfold wrapped_in_quotes. intros H.
  cbn [append] in H. injection H as H. destruct body; discriminate.
Qed.

(** C7, at the input on which the code departs from it: the command
    made of one single quote is not wrapped in a pair of quotes, yet
    the parser strips it and stores the empty command. *)
Theorem lone_quote_is_stripped :
  unquote "'" = ""
  /\ parse_cloud_init ("runcmd:" ++ nl ++ "  - '")
     = Done (mkConfig [] [] [""] true).
Proof. split; reflexivity. Qed.

(** ** Further properties of the generator *)

Lemma join_cons (sep x : string) (l : list string) :
  l <> [] -> join sep (x :: l) = x ++ sep ++ join sep l.
Proof. destruct l; [congruence|reflexivity]. Qed.

Lemma append_assoc (a b c : string) : (a ++ b) ++ c = a ++ b ++ c.
Proof. induction a as [|x a IH]; [reflexivity|]. cbn. rewrite IH. reflexivity. Qed.

Lemma append_nil_r (a : string) : a ++ "" = a.
Proof. induction a as [|x a IH]; [reflexivity|]. cbn. rewrite IH. reflexivity. Qed.

Lemma startswith_drop (s p : string) :
  startswith s p = true -> s = p ++ drop (String.length p) s.
Proof.
  revert s. induction p as [|b p IH]; intros s H; [reflexivity|].
  destruct s as [|a s]; [discriminate|].
  cbn [startswith] in H. apply andb_true_iff in H. destruct H as [Hc H].
  apply Ascii.eqb_eq in Hc. subst b.
  cbn [String.length drop append]. f_equal. apply IH. exact H.
Qed.

Lemma split_from_skip (sep : string) (b : option nat) (k : nat) (cur s : string) :
  split_from sep b k cur s = split_from sep b 0 cur (drop k s).
Proof.
  revert k. induction s as [|c s IH]; intros k.
  - destruct k; reflexivity.
  - destruct k; [reflexivity|]. cbn [split_from drop]. apply IH.
Qed.

(** Joining the pieces of a split with the separator gives the string
    back. *)
Lemma join_split_from (sep : string) :
  sep <> "" ->
  forall s b k cur, join sep (split_from sep b k cur s) = cur ++ drop k s.
Proof.
  intros Hsep. induction s as [|c s IH]; intros b k cur.
  - destruct k; cbn; rewrite append_nil_r; reflexivity.
  - destruct k as [|k]; [|cbn [split_from drop]; apply IH].
    cbn [split_from drop].
    destruct (may_split b && startswith (String c s) sep) eqn:E.
    + apply andb_true_iff in E. destruct E as [_ E].
      rewrite join_cons by apply split_from_nonempty.
      rewrite IH. cbn [append].
      pose proof (startswith_drop _ _ E) as Hd.
      destruct sep as [|a sep]; [congruence|].
      cbn [String.length drop Nat.sub] in *. rewrite Nat.sub_0_r.
      rewrite <- Hd. reflexivity.
    + rewrite IH. cbn [drop]. rewrite append_assoc. reflexivity.
Qed.

Lemma join_split (sep s : string) : sep <> "" -> join sep (split sep s) = s.
Proof. intros H. unfold split. rewrite join_split_from by exact H. reflexivity. Qed.

Lemma split_from_absent (sep : string) (b : option nat) (s cur : string) :
  contains s sep = false -> split_from sep b 0 cur s = [cur ++ s].
Proof.
  revert cur. induction s as [|c s IH]; intros cur H.
  - cbn. rewrite append_nil_r. reflexivity.
  - cbn [contains] in H. apply orb_false_iff in H. destruct H as [H1 H2].
    cbn [split_from]. rewrite H1, andb_false_r, IH by exact H2.
    rewrite append_assoc. reflexivity.
Qed.

Lemma split_from_char_app (ch : ascii) (x : string) : forall cur y,
  split_from (String ch "") None 0 cur (x ++ String ch y)
  = split_from (String ch "") None 0 cur x
    +++ split_from (String ch "") None 0 "" y.
Proof.
  induction x as [|c x IH]; intros cur y.
  - cbn [append split_from may_split andb startswith String.length Nat.sub spend app].
    rewrite Ascii.eqb_refl. reflexivity.
  - cbn [append split_from may_split andb].
    change (startswith (String c (x ++ String ch y)) (String ch ""))
      with (Ascii.eqb c ch && true).
    change (startswith (String c x) (String ch ""))
      with (Ascii.eqb c ch && true).
    destruct (Ascii.eqb c ch); cbn [andb spend String.length Nat.sub];
      rewrite IH; reflexivity.
Qed.

Lemma parent_dir_split (dir base : string) :
  contains base "/" = false -> parent_dir (dir ++ "/" ++ base) = dir.
Proof.
  intros Hb. unfold parent_dir, init_of, split.
  change (dir ++ "/" ++ base) with (dir ++ String "/"%char base).
  rewrite (split_from_char_app "/"%char dir "" base).
  rewrite (split_from_absent "/" None base "" Hb). cbn [append].
  rewrite removelast_last.
  apply (join_split "/" dir). discriminate.
Qed.

Lemma parent_dir_none (p : string) :
  contains p "/" = false -> parent_dir p = "".
Proof.
  intros H. unfold parent_dir, init_of, split.
  rewrite (split_from_absent "/" None p "" H). reflexivity.
Qed.

(** X4. The directory created for a file is its path up to the last
    slash: for a path [dir/base] with no slash in [base], the block
    starts with [mkdir -p dir] when [dir] is not empty and has no mkdir
    line when it is; a path without a slash gets no mkdir line. *)
Theorem mkdir_targets_parent :
  forall (p owner perms content : string),
    let body := ["cat > " ++ p ++ " << 'FILEEOF'"; content; "FILEEOF";
                 "chmod " ++ perms ++ " " ++ p; "chown " ++ owner ++ " " ++ p; ""] in
    (contains p "/" = false -> emit_file p owner perms content = body)
    /\ (forall dir base,
           p = dir ++ "/" ++ base -> contains base "/" = false ->
           emit_file p owner perms content
           = (if truthy dir then ["mkdir -p " ++ dir] else []) +++ body).
Proof.
  intros p owner perms content body. split.
  - intros H. unfold emit_file.
    change (join "/" (init_of (split "/" p))) with (parent_dir p).
    rewrite (parent_dir_none p H). reflexivity.
  - intros dir base Hp Hb. unfold emit_file.
    change (join "/" (init_of (split "/" p))) with (parent_dir p).
    subst p. rewrite !(parent_dir_split dir base Hb). reflexivity.
Qed.

Lemma mkdir_targets_parent_witness :
  emit_file "motd" "root:root" "0644" "hi"
  = ["cat > motd << 'FILEEOF'"; "hi"; "FILEEOF"; "chmod 0644 motd";
     "chown root:root motd"; ""]
  /\ emit_file "/etc/ssh/banner" "root:root" "0644" "hi"
     = ["mkdir -p /etc/ssh"; "cat > /etc/ssh/banner << 'FILEEOF'"; "hi"; "FILEEOF";
        "chmod 0644 /etc/ssh/banner"; "chown root:root /etc/ssh/banner"; ""]
  /\ emit_file "/motd" "root:root" "0644" "hi"
     = ["cat > /motd << 'FILEEOF'"; "hi"; "FILEEOF"; "chmod 0644 /motd";
        "chown root:root /motd"; ""].
Proof.
  split; [|split].
  - apply (proj1 (mkdir_targets_parent "motd" "root:root" "0644" "hi")).
    reflexivity.
  - apply (proj2 (mkdir_targets_parent "/etc/ssh/banner" "root:root" "0644" "hi")
                 "/etc/ssh" "banner"); reflexivity.
  - apply (proj2 (mkdir_targets_parent "/motd" "root:root" "0644" "hi")
                 "" "motd"); reflexivity.
Defined.

Lemma contains_trans (s p q : string) :
  contains p q = true -> contains s p = true -> contains s q = true.
Proof.
  rewrite !contains_spec. intros [a' [b' ->]] [a [b ->]].
  exists (a ++ a'), (b' ++ b). rewrite !append_assoc. reflexivity.
Qed.

Lemma contains_absent (s p q : string) :
  contains p q = true -> contains s q = false -> contains s p = false.
Proof.
  intros Hpq Hq. destruct (contains s p) eqn:E; [|reflexivity].
  rewrite (contains_trans s p q Hpq E) in Hq. discriminate.
Qed.

(** [replace] leaves a string without an occurrence of [old] as it
    is. *)
Lemma replace_absent (old new s : string) :
  old <> "" -> contains s old = false -> replace old new s = s.
Proof.
  intros Hne. induction s as [|c s IH]; intros H.
  - destruct old; [congruence|reflexivity].
  - rewrite replace_unfold by exact Hne.
    cbn [contains] in H. apply orb_false_iff in H. destruct H as [H1 H2].
    rewrite H1, IH by exact H2. reflexivity.
Qed.

Lemma rewrites_without_ubuntu (user s : string) :
  contains s "ubuntu" = false ->
  rewrite_path user s = s /\ rewrite_owner user s = s
  /\ rewrite_content user s = s /\ rewrite_cmd user s = s.
Proof.
  intros H.
  assert (Hh : contains s "/home/ubuntu" = false)
    by (apply (contains_absent s _ "ubuntu"); [reflexivity|exact H]).
  assert (Hu : contains s "ubuntu:ubuntu" = false)
    by (apply (contains_absent s _ "ubuntu"); [reflexivity|exact H]).
  assert (Hz : contains s "chsh -s /usr/bin/zsh ubuntu" = false)
    by (apply (contains_absent s _ "ubuntu"); [reflexivity|exact H]).
  assert (Hc : contains s "chown -R ubuntu:ubuntu" = false)
    by (apply (contains_absent s _ "ubuntu"); [reflexivity|exact H]).
  assert (Hs : contains s "su - ubuntu" = false)
    by (apply (contains_absent s _ "ubuntu"); [reflexivity|exact H]).
  unfold rewrite_path, rewrite_owner, rewrite_content, rewrite_cmd.
  destruct (negb (user =? "ubuntu")%string); [|repeat split].
  rewrite (replace_absent "ubuntu:ubuntu" _ s) by (discriminate || exact Hu).
  rewrite (replace_absent "/home/ubuntu" _ s) by (discriminate || exact Hh).
  rewrite (replace_absent "chsh -s /usr/bin/zsh ubuntu" _ s) by (discriminate || exact Hz).
  rewrite (replace_absent "chown -R ubuntu:ubuntu" _ s) by (discriminate || exact Hc).
  rewrite (replace_absent "su - ubuntu" _ s) by (discriminate || exact Hs).
  rewrite (replace_absent "ubuntu" _ s) by (discriminate || exact H).
  repeat split.
Qed.

(** X2. A Config none of whose paths, owners, contents and commands
    mentions [ubuntu] gives the same script for every user. *)
Theorem script_independent_of_user :
  forall (sections : Config) (user : string),
    config_free_of_ubuntu sections ->
    generate_bash sections user = generate_bash sections "ubuntu".
Proof.
  intros sections user [Hf Hr].
  unfold generate_bash, generate_lines, runcmd_section.
  assert (Hfiles : flat_map (file_block user) (write_files sections)
                   = flat_map (file_block "ubuntu") (write_files sections)).
  { induction Hf as [|e files [Hp [Ho Hc]] _ IH]; [reflexivity|].
    cbn [flat_map]. rewrite IH. f_equal.
    unfold file_block.
    destruct (rewrites_without_ubuntu user _ Hp) as [-> _].
    destruct (rewrites_without_ubuntu user _ Ho) as [_ [-> _]].
    destruct (rewrites_without_ubuntu user _ Hc) as [_ [_ [-> _]]].
    reflexivity. }
  assert (Hcmds : map (rewrite_cmd user) (runcmd sections)
                  = map (rewrite_cmd "ubuntu") (runcmd sections)).
  { induction Hr as [|cmd cmds Hc _ IH]; [reflexivity|].
    cbn [map]. rewrite IH.
    destruct (rewrites_without_ubuntu user _ Hc) as [_ [_ [_ ->]]].
    reflexivity. }
  rewrite Hfiles, Hcmds. reflexivity.
Qed.

Lemma script_independent_of_user_witness :
  generate_bash round_trip_config "deploy" = generate_bash round_trip_config "ubuntu".
Proof.
  apply script_independent_of_user.
  split.
  - constructor; [|constructor]. repeat split.
  - constructor; [|constructor]. reflexivity.
Defined.



Lemma runcmd_section_ends_blank (user : string) (sections : Config) :
  runcmd_section user sections = [] \/ ends_blank (runcmd_section user sections).
Proof.
  unfold runcmd_section. destruct (runcmd sections) as [|cmd cmds]; [left; reflexivity|].
  right. exists ("# Run commands" :: map (rewrite_cmd user) (cmd :: cmds)). reflexivity.
Qed.

Lemma ssh_section_ends_blank (sections : Config) :
  ssh_section sections = [] \/ ends_blank (ssh_section sections).
Proof.
  unfold ssh_section. destruct (negb (ssh_pwauth sections)); [right|left; reflexivity].
  eexists [_; _; _; _; _; _; _]. reflexivity.
Qed.

(** X1. Every generated script starts with the three header lines and
    an empty line, and ends with an empty line: its text ends with a
    newline. *)
Theorem script_header_and_end :
  forall (sections : Config) (user : string),
    (exists body, script_lines (generate_bash sections user) = header +++ body)
    /\ ends_blank (script_lines (generate_bash sections user))
    /\ exists body, generate_bash sections user = body ++ nl.
Proof.
  intros sections user.
  assert (Hl : ends_blank (generate_lines sections user)).
  { rewrite generate_lines_sections.
    assert (Hb : ends_blank (lines_before_ssh sections user)).
    { unfold lines_before_ssh. apply ends_blank_app.
      - exists ["#!/bin/bash"; "set -x"; "export DEBIAN_FRONTEND=noninteractive"].
        reflexivity.
      - assert (Hf := file_blocks_end_blank user (write_files sections)).
        unfold packages_section. destruct (packages sections) as [|p ps].
        + exact Hf.
        + right. apply ends_blank_app; [|exact Hf].
          eexists [_; _; _; _]. reflexivity. }
    apply ends_blank_app; [exact Hb|].
    destruct (ssh_section_ends_blank sections) as [-> | Hs].
    - apply runcmd_section_ends_blank.
    - right. apply ends_blank_app; [exact Hs|]. apply runcmd_section_ends_blank. }
  split; [|split].
  - unfold generate_bash. rewrite script_lines_join
      by (unfold generate_lines, header; discriminate).
    unfold generate_lines. rewrite flat_map_app.
    eexists. reflexivity.
  - unfold generate_bash. rewrite script_lines_join
      by (unfold generate_lines, header; discriminate).
    destruct Hl as [s ->]. exists (flat_map (split nl) s).
    rewrite flat_map_app. reflexivity.
  - unfold generate_bash. destruct Hl as [s Hs].
    assert (Hne : s <> []).
    { intros ->. unfold generate_lines, header in Hs. discriminate. }
    rewrite Hs. exists (join nl s).
    clear Hs. induction s as [|x s IH]; [congruence|].
    destruct s as [|y s].
    + reflexivity.
    + change (join nl ((x :: y :: s) +++ [""]))
        with (x ++ nl ++ join nl ((y :: s) +++ [""])).
      rewrite IH by discriminate.
      change (join nl (x :: y :: s)) with (x ++ nl ++ join nl (y :: s)).
      rewrite !append_assoc. reflexivity.
Qed.

(** ** Further properties of the parser *)

Lemma skipn_nth {A : Type} (l : list A) (i : nat) (x : A) :
  nth_error l i = Some x -> skipn i l = x :: skipn (S i) l.
Proof.
  revert i. induction l as [|y l IH]; intros i H.
  - destruct i; discriminate.
  - destruct i as [|i]; [injection H as ->; reflexivity|].
    cbn [nth_error] in H. cbn [skipn]. rewrite (IH i H). reflexivity.
Qed.

Section Blocks.

Variable lines : list string.

(** The [packages] loop consumes the longest run of lines, from
    where it starts, that are indented by two spaces or blank, and
    appends the trimmed text of each item line of the run, in order;
    the other lines of the run add nothing. *)
Lemma packages_block_collected :
  forall (fuel : nat) (c : cursor) (pkgs : list string),
    loop_pre lines fuel c ->
    exists c',
      packages_loop lines fuel c pkgs
      = Done (c', pkgs +++ package_items (take_while in_block (skipn (idx c) lines)))
      /\ idx c' = idx c + length (take_while in_block (skipn (idx c) lines)).
Proof.
  induction fuel as [|fuel IH]; intros c pkgs Hpre;
    [unfold loop_pre in Hpre; lia|].
  cbn [packages_loop].
  destruct (idx c <? length lines) eqn:E.
  - apply Nat.ltb_lt in E.
    destruct (item_at_lt lines _ E) as [l [Hn Hl]]. rewrite Hl. cbn [bind].
    rewrite (skipn_nth _ _ _ Hn). cbn [take_while].
    fold (in_block l). destruct (in_block l).
    + match goal with |- context [packages_loop lines fuel ?c1 ?p1] =>
        destruct (IH c1 p1) as [c' [-> Hi]] end.
      { unfold loop_pre in *. cbn [idx visited advance tick descending]. intuition lia. }
      exists c'. cbn [idx advance tick] in *.
      unfold package_items in *. cbn [filter length].
      fold (is_item l). destruct (is_item l); cbn [map];
        rewrite <- ?app_assoc; split; [reflexivity|lia|reflexivity|lia].
    + exists c. unfold package_items. cbn. rewrite app_nil_r.
      split; [reflexivity|lia].
  - apply Nat.ltb_ge in E. rewrite (skipn_all2 lines E).
    exists c. unfold package_items. cbn. rewrite app_nil_r.
    split; [reflexivity|lia].
Qed.

(** The [runcmd] loop consumes the longest run of lines that are
    indented by two spaces or blank, and appends, in order, the text
    after the marker of each item line of the run, passed through
    [unquote]; comment lines and the other lines of the run add
    nothing. *)
Lemma runcmd_block_collected :
  forall (fuel : nat) (c : cursor) (cmds : list string),
    loop_pre lines fuel c ->
    exists c',
      runcmd_loop lines fuel c cmds
      = Done (c', cmds +++ command_items (take_while in_block (skipn (idx c) lines)))
      /\ idx c' = idx c + length (take_while in_block (skipn (idx c) lines)).
Proof.
  induction fuel as [|fuel IH]; intros c cmds Hpre;
    [unfold loop_pre in Hpre; lia|].
  cbn [runcmd_loop].
  destruct (idx c <? length lines) eqn:E.
  - apply Nat.ltb_lt in E.
    destruct (item_at_lt lines _ E) as [l [Hn Hl]]. rewrite Hl. cbn [bind].
    rewrite (skipn_nth _ _ _ Hn). cbn [take_while].
    fold (in_block l). destruct (in_block l).
    + assert (Hpre' : loop_pre lines fuel (advance (tick c))).
      { unfold loop_pre in *. cbn [idx visited advance tick descending]. intuition lia. }
      unfold command_items. cbn [filter length]. unfold is_item at 1.
      destruct (startswith (strip l) "# ") eqn:Hc.
      * assert (Hi : startswith (strip l) "- " = false).
        { destruct (strip l) as [|a s]; [reflexivity|].
          cbn [startswith] in *. apply andb_true_iff in Hc. destruct Hc as [Ha _].
          apply Ascii.eqb_eq in Ha. subst a. reflexivity. }
        rewrite Hi.
        destruct (IH (advance (tick c)) cmds Hpre') as [c' [-> Hidx]].
        exists c'. cbn [idx advance tick] in *. split; [reflexivity|lia].
      * destruct (startswith (strip l) "- ").
        -- destruct (IH (advance (tick c)) (cmds +++ [unquote (drop 2 (strip l))]) Hpre')
             as [c' [-> Hidx]].
           exists c'. cbn [idx advance tick map] in *. rewrite <- app_assoc.
           split; [reflexivity|lia].
        -- destruct (IH (advance (tick c)) cmds Hpre') as [c' [-> Hidx]].
           exists c'. cbn [idx advance tick] in *. split; [reflexivity|lia].
    + exists c. unfold command_items. cbn. rewrite app_nil_r.
      split; [reflexivity|lia].
  - apply Nat.ltb_ge in E. rewrite (skipn_all2 lines E).
    exists c. unfold command_items. cbn. rewrite app_nil_r.
    split; [reflexivity|lia].
Qed.

End Blocks.

Lemma packages_block_collected_witness :
  let lines := ["packages:"; "  - nginx "; ""; "  # tools"; "  -  git"; "runcmd:"] in
  exists c',
    packages_loop lines 6 (mkCursor 1 [0]) ["curl"]
    = Done (c', ["curl"; "nginx"; "git"])
    /\ idx c' = 5.
Proof.
  intros lines.
  apply (packages_block_collected lines 6 (mkCursor 1 [0]) ["curl"]).
  unfold loop_pre, lines. cbn [idx visited descending length]. lia.
Defined.

Lemma runcmd_block_collected_witness :
  let lines := ["runcmd:"; "  - 'echo a'"; "  # note"; "  - echo b"; "packages:"] in
  exists c',
    runcmd_loop lines 5 (mkCursor 1 [0]) []
    = Done (c', ["echo a"; "echo b"])
    /\ idx c' = 4.
Proof.
  intros lines.
  apply (runcmd_block_collected lines 5 (mkCursor 1 [0]) []).
  unfold loop_pre, lines. cbn [idx visited descending length]. lia.
Defined.

(** ** Top-level lines *)

Lemma rstrip_by_head (p : ascii -> bool) (c : ascii) (s : string) :
  p c = false -> exists r, rstrip_by p (String c s) = String c r.
Proof.
  intros H. cbn [rstrip_by]. rewrite H.
  destruct (rstrip_by p s); eauto.
Qed.

Lemma strip_head (c : ascii) (s : string) :
  isspace c = false -> exists r, strip (String c s) = String c r.
Proof.
  intros H. unfold strip, strip_by. cbn [lstrip_by]. rewrite H.
  apply rstrip_by_head. exact H.
Qed.

Lemma toplevel_not_blank (l : string) : toplevel l = true -> is_blank l = false.
Proof.
  destruct l as [|c s]; [discriminate|]. cbn [toplevel]. intros H.
  apply andb_true_iff in H. destruct H as [H _]. apply negb_true_iff in H.
  destruct (strip_head c s H) as [r Hr]. unfold is_blank. rewrite Hr. reflexivity.
Qed.

Lemma toplevel_not_indented (l : string) (n : nat) :
  toplevel l = true -> startswith l (spaces (S n)) = false.
Proof.
  destruct l as [|c s]; [discriminate|]. cbn [toplevel spaces startswith]. intros H.
  apply andb_true_iff in H. destruct H as [H _]. apply negb_true_iff in H.
  destruct (Ascii.eqb_spec c " "%char) as [->|_]; [discriminate|reflexivity].
Qed.

Lemma toplevel_not_in_block (l : string) : toplevel l = true -> in_block l = false.
Proof.
  intros H. unfold in_block.
  rewrite (toplevel_not_blank l H), orb_false_r.
  destruct l as [|c s]; [discriminate|]. cbn [toplevel startswith] in *.
  apply andb_true_iff in H. destruct H as [H _]. apply negb_true_iff in H.
  destruct (Ascii.eqb_spec c " "%char) as [->|_]; [discriminate|reflexivity].
Qed.

Lemma section_ends_toplevel (l : string) : section_ends l = Done (toplevel l).
Proof. destruct l; reflexivity. Qed.

Lemma entry_ends_toplevel (l : string) :
  entry_ends l = Done false -> toplevel l = false.
Proof.
  unfold entry_ends. destruct (startswith (strip l) "- path:"); [discriminate|].
  destruct l as [|c s]; [reflexivity|].
  cbn [truthy char_at String.get bind toplevel]. intros H. injection H as H.
  destruct (isspace c) eqn:Hc; [reflexivity|]. cbn [negb andb] in *.
  destruct (strip_head c s Hc) as [r Hr]. rewrite Hr in *.
  cbn [truthy andb] in H. exact H.
Qed.

Lemma marker_toplevel (l : string) :
  startswith l "ssh_pwauth:" = true -> toplevel l = true.
Proof.
  destruct l as [|c s]; [discriminate|]. cbn [startswith]. intros H.
  apply andb_true_iff in H. destruct H as [H _]. apply Ascii.eqb_eq in H. subst c.
  cbn [toplevel]. destruct (strip_head "s"%char s eq_refl) as [r ->]. reflexivity.
Qed.

Section TopLevel.

Variable lines : list string.

Lemma passes_refl (a : nat) : passes_no_toplevel lines a a.
Proof. intros j l H. lia. Qed.

Lemma passes_step (a b : nat) (l : string) :
  nth_error lines a = Some l -> toplevel l = false ->
  passes_no_toplevel lines (S a) b -> passes_no_toplevel lines a b.
Proof.
  intros Hl Ht Hp j l' Hj Hn.
  destruct (Nat.eq_dec j a) as [->|Hne].
  - rewrite Hl in Hn. injection Hn as <-. exact Ht.
  - apply (Hp j l'); [lia|exact Hn].
Qed.

Lemma passes_trans (a b c : nat) :
  passes_no_toplevel lines a b -> passes_no_toplevel lines b c ->
  passes_no_toplevel lines a c.
Proof.
  intros H1 H2 j l Hj Hn.
  destruct (Nat.lt_ge_cases j b); [apply (H1 j l)|apply (H2 j l)]; auto; lia.
Qed.

Ltac open_line H l Hn :=
  cbn [idx tick] in H; unfold item_at in H;
  destruct (nth_error lines _) as [l|] eqn:Hn; [|discriminate H];
  cbn [bind] in H.

Ltac finish_here H :=
  injection H as <- _; cbn [idx tick]; split; [lia|apply passes_refl].

Ltac step_on IH H Hn :=
  apply IH in H; cbn [idx advance tick] in H; destruct H as [Hle Hp];
  split; [lia|]; eapply passes_step; [exact Hn| |exact Hp].

Lemma packages_loop_passes fuel : forall c pkgs c' r,
  packages_loop lines fuel c pkgs = Done (c', r) ->
  idx c <= idx c' /\ passes_no_toplevel lines (idx c) (idx c').
Proof.
  induction fuel as [|fuel IH]; intros c pkgs c' r H; [discriminate|].
  cbn [packages_loop] in H.
  destruct (idx c <? length lines); [|finish_here H].
  open_line H l Hn. fold (in_block l) in H.
  destruct (in_block l) eqn:B; [|finish_here H].
  step_on IH H Hn.
  destruct (toplevel l) eqn:T; [|reflexivity].
  rewrite (toplevel_not_in_block l T) in B. discriminate.
Qed.

Lemma runcmd_loop_passes fuel : forall c cmds c' r,
  runcmd_loop lines fuel c cmds = Done (c', r) ->
  idx c <= idx c' /\ passes_no_toplevel lines (idx c) (idx c').
Proof.
  induction fuel as [|fuel IH]; intros c cmds c' r H; [discriminate|].
  cbn [runcmd_loop] in H.
  destruct (idx c <? length lines); [|finish_here H].
  open_line H l Hn. fold (in_block l) in H.
  destruct (in_block l) eqn:B; [|finish_here H].
  assert (T : toplevel l = false).
  { destruct (toplevel l) eqn:T; [|reflexivity].
    rewrite (toplevel_not_in_block l T) in B. discriminate. }
  destruct (startswith (strip l) "# "); step_on IH H Hn; exact T.
Qed.

Lemma content_loop_passes fuel : forall c indent acc c' r,
  content_loop lines fuel c indent acc = Done (c', r) ->
  idx c <= idx c' /\ passes_no_toplevel lines (idx c) (idx c').
Proof.
  induction fuel as [|fuel IH]; intros c indent acc c' r H; [discriminate|].
  cbn [content_loop] in H.
  destruct (idx c <? length lines); [|finish_here H].
  open_line H l Hn.
  destruct (has_indent (detect_indent indent l) l && (0 <? String.length l)) eqn:I.
  - step_on IH H Hn.
    apply andb_true_iff in I. destruct I as [I _].
    destruct (toplevel l) eqn:T; [|reflexivity].
    unfold has_indent in I. destruct (detect_indent indent l) as [[|n]|]; try discriminate.
    rewrite (toplevel_not_indented l n T) in I. discriminate.
  - destruct (is_blank l) eqn:B; [|finish_here H].
    destruct (next_line_indented lines (tick c) (detect_indent indent l))
      as [[|]| |]; cbn [bind] in H; try discriminate; [|finish_here H].
    step_on IH H Hn.
    destruct (toplevel l) eqn:T; [|reflexivity].
    rewrite (toplevel_not_blank l T) in B. discriminate.
Qed.

Lemma entry_loop_passes fuel : forall c entry c' r,
  entry_loop lines fuel c entry = Done (c', r) ->
  idx c <= idx c' /\ passes_no_toplevel lines (idx c) (idx c').
Proof.
  induction fuel as [|fuel IH]; intros c entry c' r H; [discriminate|].
  cbn [entry_loop] in H.
  destruct (idx c <? length lines); [|finish_here H].
  open_line H l Hn.
  destruct (entry_ends l) as [[|]| |] eqn:Ee; cbn [bind] in H; try discriminate;
    [finish_here H|].
  assert (T : toplevel l = false) by (apply entry_ends_toplevel; exact Ee).
  destruct (startswith (strip l) "owner:").
  { destruct (nth_error (split_max _ 1 _) 1) as [v|]; cbn [bind] in H;
      try discriminate.
    step_on IH H Hn; exact T. }
  destruct (startswith (strip l) "permissions:").
  { destruct (nth_error (split_max _ 1 _) 1) as [v|]; cbn [bind] in H;
      try discriminate.
    step_on IH H Hn; exact T. }
  destruct (startswith (strip l) "content:"); [|step_on IH H Hn; exact T].
  destruct (content_loop lines fuel (advance (tick c)) None []) as [[c1 cl]| |] eqn:Ec;
    cbn [bind] in H; try discriminate.
  apply content_loop_passes in Ec. cbn [idx advance tick] in Ec. destruct Ec as [Hle1 Hp1].
  apply IH in H. destruct H as [Hle2 Hp2].
  split; [lia|]. eapply passes_step; [exact Hn|exact T|].
  eapply passes_trans; eassumption.
Qed.

Lemma write_files_loop_passes fuel : forall c files c' r,
  write_files_loop lines fuel c files = Done (c', r) ->
  idx c <= idx c' /\ passes_no_toplevel lines (idx c) (idx c')
  /\ (length lines <= idx c'
      \/ exists l, nth_error lines (idx c') = Some l /\ toplevel l = true).
Proof.
  induction fuel as [|fuel IH]; intros c files c' r H; [discriminate|].
  cbn [write_files_loop] in H.
  destruct (idx c <? length lines) eqn:E.
  2:{ injection H as <- _. apply Nat.ltb_ge in E.
      split; [lia|]. split; [apply passes_refl|left; exact E]. }
  open_line H l Hn.
  rewrite section_ends_toplevel in H. cbn [bind] in H.
  destruct (toplevel l) eqn:T.
  { injection H as <- _. cbn [idx tick].
    split; [lia|]. split; [apply passes_refl|right; eauto]. }
  assert (Hgo : forall c1 f1,
             idx c < idx c1 -> passes_no_toplevel lines (S (idx c)) (idx c1) ->
             write_files_loop lines fuel c1 f1 = Done (c', r) ->
             idx c <= idx c' /\ passes_no_toplevel lines (idx c) (idx c')
             /\ (length lines <= idx c'
                 \/ exists l, nth_error lines (idx c') = Some l /\ toplevel l = true)).
  { intros c1 f1 Hlt Hp1 H1. apply IH in H1. destruct H1 as [Hle [Hp2 Hx]].
    split; [lia|]. split; [|exact Hx].
    eapply passes_step; [exact Hn|exact T|].
    eapply passes_trans; eassumption. }
  destruct ((strip l =? "")%string || startswith (strip l) "#").
  { apply (Hgo (advance (tick c)) files);
      [cbn [idx advance tick]; lia|apply passes_refl|exact H]. }
  destruct (startswith (strip l) "- path:").
  2:{ apply (Hgo (advance (tick c)) files);
        [cbn [idx advance tick]; lia|apply passes_refl|exact H]. }
  destruct (nth_error (split_max _ 1 _) 1) as [v|]; cbn [bind] in H;
    try discriminate.
  match type of H with context [entry_loop lines fuel ?c1 ?e1] =>
    destruct (entry_loop lines fuel c1 e1) as [[c1' e1']| |] eqn:Ee end;
    cbn [bind] in H; try discriminate.
  apply entry_loop_passes in Ee. cbn [idx advance tick] in Ee. destruct Ee as [Hle1 Hp1].
  apply (Hgo c1' (files +++ [e1'])); [lia|exact Hp1|exact H].
Qed.

End TopLevel.

Section Fields.

Variable lines : list string.

Lemma block_extent (k : nat) : forall a b,
  b = a + k -> b <= length lines ->
  passes_no_toplevel lines a b ->
  (length lines <= b \/ exists l, nth_error lines b = Some l /\ toplevel l = true) ->
  length (take_while (fun l => negb (toplevel l)) (skipn a lines)) = k.
Proof.
  induction k as [|k IH]; intros a b Hb Hlen Hp Hx.
  - replace b with a in * by lia.
    destruct Hx as [Hx | [l [Hl Ht]]].
    + rewrite (skipn_all2 lines Hx). reflexivity.
    + rewrite (skipn_nth _ _ _ Hl). cbn [take_while]. rewrite Ht. reflexivity.
  - assert (Ha : a < length lines) by lia.
    destruct (item_at_lt lines a Ha) as [l [Hl _]].
    rewrite (skipn_nth _ _ _ Hl). cbn [take_while].
    rewrite (Hp a l ltac:(lia) Hl). cbn [negb length]. f_equal.
    apply (IH (S a) b); [lia|exact Hlen| |exact Hx].
    intros j l' Hj. apply Hp. lia.
Qed.

(** X8. The [write_files] loop always runs to the first top-level line
    at or after its start (a line that is not empty, does not start
    with whitespace and is not a comment) or to the end of the input,
    whatever the lines in between hold. *)
Theorem write_files_extent :
  forall (fuel : nat) (c : cursor) (files : list FileEntry),
    loop_pre lines fuel c ->
    exists c' files',
      write_files_loop lines fuel c files = Done (c', files')
      /\ idx c' = idx c
                  + length (take_while (fun l => negb (toplevel l))
                                       (skipn (idx c) lines)).
Proof.
  intros fuel c files Hpre.
  destruct (write_files_loop_spec lines fuel c files Hpre) as [c' [r [E Hpost]]].
  exists c', r. split; [exact E|].
  destruct (write_files_loop_passes lines fuel c files c' r E) as [Hle [Hp Hx]].
  destruct Hpost as [_ [Hlen _]].
  rewrite (block_extent (idx c' - idx c) (idx c) (idx c')); auto; lia.
Qed.

Lemma not_toplevel_not_key (l : string) :
  toplevel l = false ->
  startswith l "ssh_pwauth:" = false
  /\ (l =? "packages:")%string = false /\ (l =? "runcmd:")%string = false.
Proof.
  intros T. repeat split.
  - destruct (startswith l "ssh_pwauth:") eqn:E; [|reflexivity].
    rewrite (marker_toplevel l E) in T. discriminate.
  - destruct (String.eqb_spec l "packages:") as [->|]; [discriminate|reflexivity].
  - destruct (String.eqb_spec l "runcmd:") as [->|]; [discriminate|reflexivity].
Qed.

Lemma in_block_not_key (l : string) :
  in_block l = true ->
  (l =? "packages:")%string = false /\ (l =? "runcmd:")%string = false.
Proof.
  intros B. destruct (toplevel l) eqn:T.
  - rewrite (toplevel_not_in_block l T) in B. discriminate.
  - destruct (not_toplevel_not_key l T) as [_ H]. exact H.
Qed.

(** What holds of [skipn a lines] for a function of the lines left
    that ignores the lines which are not top-level. *)
Lemma skip_passed {R : Type} (f : list string -> R) (k : nat) :
  (forall l rest, toplevel l = false -> f (l :: rest) = f rest) ->
  forall a b, b = a + k -> passes_no_toplevel lines a b ->
              f (skipn a lines) = f (skipn b lines).
Proof.
  intros Hf. induction k as [|k IH]; intros a b Hb Hp.
  - replace b with a by lia. reflexivity.
  - destruct (Nat.lt_ge_cases a (length lines)) as [Ha|Ha].
    + destruct (item_at_lt lines a Ha) as [l [Hl _]].
      rewrite (skipn_nth _ _ _ Hl), Hf by (apply (Hp a l); [lia|exact Hl]).
      apply IH; [lia|]. intros j l' Hj. apply Hp. lia.
    + rewrite !skipn_all2 by lia. reflexivity.
Qed.

Lemma skip_block {R : Type} (f : list string -> R) :
  (forall l rest, in_block l = true -> f (l :: rest) = f rest) ->
  forall rest, f rest = f (skipn (length (take_while in_block rest)) rest).
Proof.
  intros Hf. induction rest as [|l rest IH]; [reflexivity|].
  cbn [take_while]. destruct (in_block l) eqn:B; [|reflexivity].
  cbn [length skipn]. rewrite Hf by exact B. exact IH.
Qed.

End Fields.

Lemma write_files_extent_witness :
  let doc := ["write_files:"; "  - path: /a"; "# note"; "junk";
              "    content: |"; "runcmd:"] in
  exists c' files',
    write_files_loop doc 6 (mkCursor 1 [0]) [] = Done (c', files')
    /\ idx c' = 1 + length (take_while (fun l => negb (toplevel l)) (skipn 1 doc)).
Proof.
  intros doc.
  apply (write_files_extent doc 6 (mkCursor 1 [0]) []).
  unfold loop_pre, doc. cbn [idx visited descending length]. lia.
Defined.


Section ParsedFields.

Variable lines : list string.

Lemma pwauth_ignores (acc : bool) (l : string) (rest : list string) :
  startswith l "ssh_pwauth:" = false ->
  pwauth_after (l :: rest) acc = pwauth_after rest acc.
Proof. intros H. unfold pwauth_after. cbn [fold_left]. rewrite H. reflexivity. Qed.

Lemma all_packages_ignores (l : string) (rest : list string) :
  (l =? "packages:")%string = false -> all_packages (l :: rest) = all_packages rest.
Proof. intros H. cbn [all_packages]. rewrite H. reflexivity. Qed.

Lemma all_commands_ignores (l : string) (rest : list string) :
  (l =? "runcmd:")%string = false -> all_commands (l :: rest) = all_commands rest.
Proof. intros H. cbn [all_commands]. rewrite H. reflexivity. Qed.

(** The three functions of the lines left are blind to the lines of a
    block and to the lines that are not top-level. *)
Lemma fields_skip_block (acc : bool) (rest : list string) :
  let n := length (take_while in_block rest) in
  pwauth_after rest acc = pwauth_after (skipn n rest) acc
  /\ all_packages rest = all_packages (skipn n rest)
  /\ all_commands rest = all_commands (skipn n rest).
Proof.
  intros n. unfold n. repeat split.
  - apply (skip_block (fun ls => pwauth_after ls acc)). intros l r B.
    apply pwauth_ignores. destruct (toplevel l) eqn:T.
    + rewrite (toplevel_not_in_block l T) in B. discriminate.
    + apply (not_toplevel_not_key l T).
  - apply (skip_block all_packages). intros l r B.
    apply all_packages_ignores. apply (in_block_not_key l B).
  - apply (skip_block all_commands). intros l r B.
    apply all_commands_ignores. apply (in_block_not_key l B).
Qed.

Lemma fields_skip_passed (acc : bool) (a b : nat) :
  a <= b -> passes_no_toplevel lines a b ->
  pwauth_after (skipn a lines) acc = pwauth_after (skipn b lines) acc
  /\ all_packages (skipn a lines) = all_packages (skipn b lines)
  /\ all_commands (skipn a lines) = all_commands (skipn b lines).
Proof.
  intros Hle Hp. repeat split.
  - apply (skip_passed lines (fun ls => pwauth_after ls acc) (b - a)); [|lia|exact Hp].
    intros l r T. apply pwauth_ignores. apply (not_toplevel_not_key l T).
  - apply (skip_passed lines all_packages (b - a)); [|lia|exact Hp].
    intros l r T. apply all_packages_ignores. apply (not_toplevel_not_key l T).
  - apply (skip_passed lines all_commands (b - a)); [|lia|exact Hp].
    intros l r T. apply all_commands_ignores. apply (not_toplevel_not_key l T).
Qed.

Lemma marker_not_key (l : string) :
  startswith l "ssh_pwauth:" = true ->
  (l =? "packages:")%string = false /\ (l =? "runcmd:")%string = false.
Proof.
  intros H. split.
  - destruct (String.eqb_spec l "packages:") as [->|]; [discriminate|reflexivity].
  - destruct (String.eqb_spec l "runcmd:") as [->|]; [discriminate|reflexivity].
Qed.

Lemma main_loop_fields (fuel : nat) : forall c s,
  loop_pre lines fuel c ->
  exists c' s',
    main_loop lines fuel c s = Done (c', s')
    /\ ssh_pwauth s' = pwauth_after (skipn (idx c) lines) (ssh_pwauth s)
    /\ packages s' = packages s +++ all_packages (skipn (idx c) lines)
    /\ runcmd s' = runcmd s +++ all_commands (skipn (idx c) lines).
Proof.
  induction fuel as [|fuel IH]; intros c s Hpre; [unfold loop_pre in Hpre; lia|].
  cbn [main_loop].
  destruct (idx c <? length lines) eqn:E.
  2:{ apply Nat.ltb_ge in E. rewrite (skipn_all2 lines E).
      exists c, s. cbn. rewrite !app_nil_r. auto. }
  apply Nat.ltb_lt in E.
  destruct (item_at_lt lines _ E) as [l [Hn Hl]].
  cbn [idx tick]. rewrite Hl. cbn [bind].
  rewrite (skipn_nth _ _ _ Hn).
  assert (Hpre1 : loop_pre lines fuel (advance (tick c))).
  { unfold loop_pre in *. cbn [idx visited advance tick descending]. intuition lia. }
  assert (Hnext : forall c1, loop_post lines 2 1 (advance (tick c)) c1 ->
                             loop_pre lines fuel c1).
  { intros c1 H1. unfold loop_pre, loop_post in *.
    cbn [idx visited advance tick] in *. intuition lia. }
  destruct (startswith l "ssh_pwauth:") eqn:K1.
  { destruct (IH (advance (tick c)) (set_ssh_pwauth s (contains l "true")) Hpre1)
      as [c' [s' [-> [Hp [Hk Hr]]]]].
    exists c', s'. cbn [idx advance tick set_ssh_pwauth ssh_pwauth packages runcmd] in *.
    destruct (marker_not_key l K1) as [K2 K3].
    rewrite (all_packages_ignores l _ K2), (all_commands_ignores l _ K3).
    unfold pwauth_after in *. cbn [fold_left]. rewrite K1. auto. }
  rewrite (pwauth_ignores _ l _ K1).
  destruct (String.eqb_spec l "packages:") as [K2|K2].
  { subst l.
    destruct (packages_block_collected lines fuel (advance (tick c)) (packages s) Hpre1)
      as [c1 [Hc Hi]].
    destruct (packages_loop_spec lines fuel (advance (tick c)) (packages s) Hpre1)
      as [c1' [r1 [Hc' Hpost]]].
    rewrite Hc in Hc'. injection Hc' as <- <-.
    rewrite Hc. cbn [bind].
    assert (Hp1 : loop_pre lines fuel c1).
    { unfold loop_pre, loop_post in *. cbn [idx visited advance tick] in *. intuition lia. }
    match goal with |- context [main_loop lines fuel c1 ?s1] =>
      destruct (IH c1 s1 Hp1) as [c' [s' [-> [Hp [Hk Hr]]]]] end.
    exists c', s'. cbn [idx advance tick set_packages ssh_pwauth packages runcmd] in *.
    rewrite Nat.add_comm in Hi. rewrite Hi in *. rewrite <- skipn_skipn in *.
    destruct (fields_skip_block (ssh_pwauth s) (skipn (S (idx c)) lines))
      as [F1 [F2 F3]].
    cbn [all_packages all_commands String.eqb Ascii.eqb Bool.eqb app].
    rewrite F1, F2, F3, Hp, Hk, Hr, <- app_assoc. auto. }
  apply String.eqb_neq in K2. rewrite (all_packages_ignores l _ K2).
  destruct (String.eqb_spec l "write_files:") as [K3|K3].
  { subst l.
    destruct (write_files_loop_spec lines fuel (advance (tick c)) (write_files s) Hpre1)
      as [c1 [r1 [Hc Hpost]]].
    destruct (write_files_loop_passes lines fuel _ _ _ _ Hc) as [Hle [Hpass _]].
    rewrite Hc. cbn [bind].
    match goal with |- context [main_loop lines fuel c1 ?s1] =>
      destruct (IH c1 s1 (Hnext c1 Hpost)) as [c' [s' [-> [Hp [Hk Hr]]]]] end.
    exists c', s'. cbn [idx advance tick set_write_files ssh_pwauth packages runcmd] in *.
    destruct (fields_skip_passed (ssh_pwauth s) (S (idx c)) (idx c1) Hle Hpass)
      as [F1 [F2 F3]].
    rewrite (all_commands_ignores "write_files:" _ eq_refl).
    rewrite F1, F2, F3. auto. }
  destruct (String.eqb_spec l "runcmd:") as [K4|K4].
  { subst l.
    destruct (runcmd_block_collected lines fuel (advance (tick c)) (runcmd s) Hpre1)
      as [c1 [Hc Hi]].
    destruct (runcmd_loop_spec lines fuel (advance (tick c)) (runcmd s) Hpre1)
      as [c1' [r1 [Hc' Hpost]]].
    rewrite Hc in Hc'. injection Hc' as <- <-.
    rewrite Hc. cbn [bind].
    assert (Hp1 : loop_pre lines fuel c1).
    { unfold loop_pre, loop_post in *. cbn [idx visited advance tick] in *. intuition lia. }
    match goal with |- context [main_loop lines fuel c1 ?s1] =>
      destruct (IH c1 s1 Hp1) as [c' [s' [-> [Hp [Hk Hr]]]]] end.
    exists c', s'. cbn [idx advance tick set_runcmd ssh_pwauth packages runcmd] in *.
    rewrite Nat.add_comm in Hi. rewrite Hi in *. rewrite <- skipn_skipn in *.
    destruct (fields_skip_block (ssh_pwauth s) (skipn (S (idx c)) lines))
      as [F1 [F2 F3]].
    cbn [all_commands String.eqb Ascii.eqb Bool.eqb app].
    rewrite F1, F2, F3, Hp, Hk, Hr, <- app_assoc. auto. }
  apply String.eqb_neq in K4. rewrite (all_commands_ignores l _ K4).
  destruct (IH (advance (tick c)) s Hpre1) as [c' [s' [-> [Hp [Hk Hr]]]]].
  exists c', s'. cbn [idx advance tick] in *. auto.
Qed.

End ParsedFields.

Lemma scan_fields (text : string) :
  exists sections,
    parse_cloud_init text = Done sections
    /\ ssh_pwauth sections = pwauth_after (split nl text) true
    /\ packages sections = all_packages (split nl text)
    /\ runcmd sections = all_commands (split nl text).
Proof.
  destruct (main_loop_fields (split nl text) (S (length (split nl text)))
                             (mkCursor 0 []) initial_sections
                             (start_pre (split nl text)))
    as [c [s [E [Hp [Hk Hr]]]]].
  exists s. unfold parse_cloud_init, scan. rewrite E. cbn [bind snd].
  cbn [idx skipn initial_sections ssh_pwauth packages runcmd app] in *. auto.
Qed.

Lemma pwauth_after_no_key (lines : list string) (acc : bool) :
  (forall x, In x lines -> startswith x "ssh_pwauth:" = false) ->
  pwauth_after lines acc = acc.
Proof.
  revert acc. induction lines as [|l lines IH]; intros acc H; [reflexivity|].
  rewrite pwauth_ignores by (apply H; left; reflexivity).
  apply IH. intros x Hx. apply H. right. exact Hx.
Qed.

Lemma pwauth_after_last (before after : list string) (l : string) (acc : bool) :
  startswith l "ssh_pwauth:" = true ->
  (forall x, In x after -> startswith x "ssh_pwauth:" = false) ->
  pwauth_after (before +++ l :: after) acc = contains l "true".
Proof.
  intros Hl Ha. unfold pwauth_after. rewrite fold_left_app. cbn [fold_left].
  rewrite Hl. apply (pwauth_after_no_key after _ Ha).
Qed.

(** X5. The parsed [ssh_pwauth] is decided by the last line of the
    document that starts with [ssh_pwauth:], wherever it stands, also
    inside or after the other sections: it is true exactly when that
    line contains [true]. *)
Theorem parsed_ssh_pwauth :
  forall text : string,
    exists sections,
      parse_cloud_init text = Done sections
      /\ ssh_pwauth sections = pwauth_after (split nl text) true
      /\ (forall before l after,
             split nl text = before +++ l :: after ->
             startswith l "ssh_pwauth:" = true ->
             (forall x, In x after -> startswith x "ssh_pwauth:" = false) ->
             ssh_pwauth sections = contains l "true").
Proof.
  intros text. destruct (scan_fields text) as [s [E [H _]]].
  exists s. split; [exact E|]. split; [exact H|].
  intros before l after Hs Hl Ha. rewrite H, Hs.
  apply pwauth_after_last; assumption.
Qed.

(** The key inside a block literal of [write_files], then overridden
    by nothing: the line [ssh_pwauth: True] ends the literal and
    counts, and it does not contain [true]. *)
Lemma parsed_ssh_pwauth_witness :
  exists sections,
    parse_cloud_init
      (join nl ["write_files:"; "  - path: /x"; "    content: |"; "      a";
                "ssh_pwauth: True"; "      b"])
    = Done sections
    /\ ssh_pwauth sections = contains "ssh_pwauth: True" "true".
Proof.
  destruct (parsed_ssh_pwauth
              (join nl ["write_files:"; "  - path: /x"; "    content: |"; "      a";
                        "ssh_pwauth: True"; "      b"]))
    as [s [E [_ H]]].
  exists s. split; [exact E|].
  apply (H ["write_files:"; "  - path: /x"; "    content: |"; "      a"]
           "ssh_pwauth: True" ["      b"]).
  - reflexivity.
  - reflexivity.
  - intros x [<- | []]. reflexivity.
Defined.

(** X6. The parsed [packages] are the items of the blocks that follow
    every line [packages:] of the document, in document order: each
    block is the longest run of lines indented by two spaces or blank,
    and each of its item lines gives its trimmed text.  A key that
    occurs again adds to the list. *)
Theorem parsed_packages :
  forall text : string,
    exists sections,
      parse_cloud_init text = Done sections
      /\ packages sections = all_packages (split nl text).
Proof.
  intros text. destruct (scan_fields text) as [s [E [_ [H _]]]]. eauto.
Qed.

(** X7. The parsed [runcmd] are the items of the blocks that follow
    every line [runcmd:] of the document, in document order; comment
    lines of a block give nothing.  Each item gives the text after the
    marker, without its first and last character when it both starts
    and ends with a single quote: a text wrapped in a pair of quotes
    gives its body, and the text made of one quote alone gives the
    empty command. *)
Theorem parsed_runcmd :
  forall text : string,
    (exists sections,
        parse_cloud_init text = Done sections
        /\ runcmd sections = all_commands (split nl text))
    /\ (forall t : string,
           unquote t
           = if startswith t "'" && endswith t "'" then slice_1_m1 t else t)
    /\ (forall body : string, unquote ("'" ++ body ++ "'") = body)
    /\ unquote "'" = "".
Proof.
  intros text. split.
  - destruct (scan_fields text) as [s [E [_ [_ H]]]]. eauto.
  - split; [reflexivity|]. split; [|reflexivity].
    intros body. apply (proj1 (unquote_spec ("'" ++ body ++ "'")) body).
    reflexivity.
Qed.

Lemma main_loop_keeps_write_files (lines : list string) :
  (forall l, In l lines -> l <> "write_files:") ->
  forall fuel c sections c' sections',
    main_loop lines fuel c sections = Done (c', sections') ->
    write_files sections' = write_files sections.
Proof.
  intros Hno. induction fuel as [|fuel IH]; intros c s c' s' H; [discriminate|].
  cbn [main_loop] in H.
  destruct (idx c <? length lines); [|injection H as _ <-; reflexivity].
  cbn [idx tick] in H. unfold item_at in H.
  destruct (nth_error lines (idx c)) as [l|] eqn:El; [|discriminate].
  cbn [bind] in H.
  destruct (startswith l "ssh_pwauth:"); [apply IH in H; exact H|].
  destruct (l =? "packages:")%string.
  { destruct (packages_loop lines fuel _ _) as [[c1 r]| |]; try discriminate.
    cbn [bind] in H. apply IH in H. exact H. }
  destruct (String.eqb_spec l "write_files:") as [K|_].
  { exfalso. apply (Hno l (nth_error_In _ _ El) K). }
  destruct (l =? "runcmd:")%string.
  { destruct (runcmd_loop lines fuel _ _) as [[c1 r]| |]; try discriminate.
    cbn [bind] in H. apply IH in H. exact H. }
  apply IH in H. exact H.
Qed.

Lemma all_packages_none (lines : list string) :
  (forall l, In l lines -> l <> "packages:") -> all_packages lines = [].
Proof.
  induction lines as [|l lines IH]; intros H; [reflexivity|].
  cbn [all_packages].
  destruct (String.eqb_spec l "packages:") as [K|_].
  - exfalso. apply (H l); [left; reflexivity|exact K].
  - apply IH. intros l' Hl'. apply H. right. exact Hl'.
Qed.

Lemma all_commands_none (lines : list string) :
  (forall l, In l lines -> l <> "runcmd:") -> all_commands lines = [].
Proof.
  induction lines as [|l lines IH]; intros H; [reflexivity|].
  cbn [all_commands].
  destruct (String.eqb_spec l "runcmd:") as [K|_].
  - exfalso. apply (H l); [left; reflexivity|exact K].
  - apply IH. intros l' Hl'. apply H. right. exact Hl'.
Qed.

(** X9. A section whose key line is nowhere in the document keeps its
    default: no line [packages:] gives no packages, no line
    [write_files:] no files, no line [runcmd:] no commands.  A key
    counts only as a whole line starting in the first column. *)
Theorem absent_sections_are_empty :
  forall text : string,
    exists sections,
      parse_cloud_init text = Done sections
      /\ ((forall l, In l (split nl text) -> l <> "packages:") ->
          packages sections = [])
      /\ ((forall l, In l (split nl text) -> l <> "write_files:") ->
          write_files sections = [])
      /\ ((forall l, In l (split nl text) -> l <> "runcmd:") ->
          runcmd sections = []).
Proof.
  intros text. destruct (scan_fields text) as [s [E [_ [Hk Hr]]]].
  exists s. split; [exact E|]. repeat split.
  - intros H. rewrite Hk. apply all_packages_none. exact H.
  - intros H. unfold parse_cloud_init, scan in E.
    destruct (main_loop (split nl text) _ _ _) as [[c s0]| |] eqn:M;
      try discriminate.
    cbn [bind snd] in E. injection E as <-.
    apply (main_loop_keeps_write_files _ H) in M. exact M.
  - intros H. rewrite Hr. apply all_commands_none. exact H.
Qed.

(** A document whose keys are indented: none of them is a section
    key. *)
Lemma absent_sections_are_empty_witness :
  exists sections,
    parse_cloud_init (" packages:" ++ nl ++ "  - git" ++ nl ++ " runcmd:") = Done sections
    /\ packages sections = []
    /\ write_files sections = []
    /\ runcmd sections = [].
Proof.
  destruct (absent_sections_are_empty (" packages:" ++ nl ++ "  - git" ++ nl ++ " runcmd:"))
    as [s [E [Hk [Hw Hr]]]].
  assert (Hin : forall l, In l (split nl (" packages:" ++ nl ++ "  - git" ++ nl ++ " runcmd:")) ->
                          l <> "packages:" /\ l <> "write_files:" /\ l <> "runcmd:").
  { intros l Hl. vm_compute in Hl.
    destruct Hl as [<- | [<- | [<- | []]]]; repeat split; discriminate. }
  exists s. split; [exact E|]. repeat split.
  - apply Hk. intros l Hl. apply (Hin l Hl).
  - apply Hw. intros l Hl. apply (Hin l Hl).
  - apply Hr. intros l Hl. apply (Hin l Hl).
Defined.

(** ** Trimmed fields *)

Lemma rstrip_by_idem (p : ascii -> bool) (s : string) :
  rstrip_by p (rstrip_by p s) = rstrip_by p s.
Proof.
  induction s as [|c s IH]; [reflexivity|].
  cbn [rstrip_by]. destruct (rstrip_by p s) as [|a r] eqn:E.
  - destruct (p c) eqn:Pc; [reflexivity|]. cbn [rstrip_by]. rewrite Pc. reflexivity.
  - cbn [rstrip_by] in *. rewrite IH. reflexivity.
Qed.

Lemma lstrip_by_head (p : ascii -> bool) (s : string) :
  lstrip_by p s = "" \/ exists c r, lstrip_by p s = String c r /\ p c = false.
Proof.
  induction s as [|c s IH]; [left; reflexivity|].
  cbn [lstrip_by]. destruct (p c) eqn:Pc; [exact IH|]. right. eauto.
Qed.

Lemma strip_by_idem (p : ascii -> bool) (s : string) :
  strip_by p (strip_by p s) = strip_by p s.
Proof.
  unfold strip_by.
  destruct (lstrip_by_head p s) as [-> | [c [r [-> Pc]]]]; [reflexivity|].
  destruct (rstrip_by_head p c r Pc) as [r' Hr]. rewrite Hr.
  cbn [lstrip_by]. rewrite Pc, <- Hr. apply rstrip_by_idem.
Qed.

Lemma strip_idem (s : string) : strip (strip s) = strip s.
Proof. apply strip_by_idem. Qed.

Section Tidy.

Variable lines : list string.

Lemma packages_loop_tidy fuel : forall c pkgs c' r,
  Forall (fun p => strip p = p) pkgs ->
  packages_loop lines fuel c pkgs = Done (c', r) ->
  Forall (fun p => strip p = p) r.
Proof.
  induction fuel as [|fuel IH]; intros c pkgs c' r Hf H; [discriminate|].
  cbn [packages_loop] in H.
  destruct (idx c <? length lines); [|injection H as _ <-; exact Hf].
  destruct (item_at lines (idx c)) as [l| |]; cbn [bind] in H; try discriminate.
  destruct (startswith l "  " || is_blank l); [|injection H as _ <-; exact Hf].
  apply IH in H; [exact H|].
  destruct (startswith (strip l) "- "); [|exact Hf].
  apply Forall_app. split; [exact Hf|].
  constructor; [apply strip_idem|constructor].
Qed.

Lemma entry_loop_tidy fuel : forall c entry c' r,
  tidy_entry entry ->
  entry_loop lines fuel c entry = Done (c', r) ->
  tidy_entry r.
Proof.
  induction fuel as [|fuel IH]; intros c entry c' r Ht H; [discriminate|].
  cbn [entry_loop] in H.
  destruct (idx c <? length lines); [|injection H as _ <-; exact Ht].
  destruct (item_at lines (idx (tick c))) as [l| |]; cbn [bind] in H; try discriminate.
  destruct (entry_ends l) as [[|]| |]; cbn [bind] in H; try discriminate;
    [injection H as _ <-; exact Ht|].
  destruct Ht as [T1 [T2 [T3 T4]]].
  destruct (startswith (strip l) "owner:").
  { destruct (item_at _ 1) as [v| |]; cbn [bind] in H; try discriminate.
    apply IH in H; [exact H|].
    repeat split; cbn [set_owner path owner permissions content]; auto.
    apply strip_idem. }
  destruct (startswith (strip l) "permissions:").
  { destruct (item_at _ 1) as [v| |]; cbn [bind] in H; try discriminate.
    apply IH in H; [exact H|].
    repeat split; cbn [set_permissions path owner permissions content]; auto.
    apply strip_by_idem. }
  destruct (startswith (strip l) "content:").
  { destruct (content_loop lines fuel _ _ _) as [[c1 cl]| |]; cbn [bind] in H;
      try discriminate.
    apply IH in H; [exact H|].
    repeat split; cbn [set_content path owner permissions content]; auto.
    apply rstrip_by_idem. }
  apply IH in H; [exact H|]. repeat split; auto.
Qed.

Lemma write_files_loop_tidy fuel : forall c files c' r,
  Forall tidy_entry files ->
  write_files_loop lines fuel c files = Done (c', r) ->
  Forall tidy_entry r.
Proof.
  induction fuel as [|fuel IH]; intros c files c' r Hf H; [discriminate|].
  cbn [write_files_loop] in H.
  destruct (idx c <? length lines); [|injection H as _ <-; exact Hf].
  destruct (item_at lines (idx (tick c))) as [l| |]; cbn [bind] in H; try discriminate.
  destruct (section_ends l) as [[|]| |]; cbn [bind] in H; try discriminate;
    [injection H as _ <-; exact Hf|].
  destruct ((strip l =? "")%string || startswith (strip l) "#");
    [apply IH in H; assumption|].
  destruct (startswith (strip l) "- path:"); [|apply IH in H; assumption].
  destruct (item_at _ 1) as [v| |]; cbn [bind] in H; try discriminate.
  match type of H with context [entry_loop lines fuel ?c1 ?e1] =>
    destruct (entry_loop lines fuel c1 e1) as [[c1' e1']| |] eqn:Ee end;
    cbn [bind] in H; try discriminate.
  apply IH in H; [exact H|].
  apply Forall_app. split; [exact Hf|]. constructor; [|constructor].
  apply entry_loop_tidy in Ee; [exact Ee|].
  repeat split; cbn [path owner permissions content]; try reflexivity.
  apply strip_idem.
Qed.

Lemma main_loop_tidy fuel : forall c s c' s',
  tidy s -> main_loop lines fuel c s = Done (c', s') -> tidy s'.
Proof.
  induction fuel as [|fuel IH]; intros c s c' s' Ht H; [discriminate|].
  cbn [main_loop] in H.
  destruct (idx c <? length lines); [|injection H as _ <-; exact Ht].
  destruct (item_at lines (idx (tick c))) as [l| |]; cbn [bind] in H; try discriminate.
  destruct Ht as [Tp Tf].
  destruct (startswith l "ssh_pwauth:").
  { apply IH in H; [exact H|]. split; assumption. }
  destruct (l =? "packages:")%string.
  { destruct (packages_loop lines fuel _ _) as [[c1 r]| |] eqn:E;
      cbn [bind] in H; try discriminate.
    apply IH in H; [exact H|]. split; [|exact Tf].
    apply (packages_loop_tidy _ _ _ _ _ Tp E). }
  destruct (l =? "write_files:")%string.
  { destruct (write_files_loop lines fuel _ _) as [[c1 r]| |] eqn:E;
      cbn [bind] in H; try discriminate.
    apply IH in H; [exact H|]. split; [exact Tp|].
    apply (write_files_loop_tidy _ _ _ _ _ Tf E). }
  destruct (l =? "runcmd:")%string.
  { destruct (runcmd_loop lines fuel _ _) as [[c1 r]| |] eqn:E;
      cbn [bind] in H; try discriminate.
    apply IH in H; [exact H|]. split; assumption. }
  apply IH in H; [exact H|]. split; assumption.
Qed.

End Tidy.

(** X10. Every Config the parser returns is trimmed: no package name,
    path or owner begins or ends with whitespace, no permissions
    string begins or ends with a double quote, and no content ends
    with whitespace; stripping any of them again changes nothing. *)
Theorem parsed_fields_are_trimmed :
  forall text : string,
    exists sections, parse_cloud_init text = Done sections /\ tidy sections.
Proof.
  intros text.
  destruct (scan_lines_spec (split nl text)) as [c [s [E _]]].
  exists s. unfold parse_cloud_init, scan. rewrite E. cbn [bind snd].
  split; [reflexivity|].
  apply (main_loop_tidy _ _ _ initial_sections _ _) in E; [exact E|].
  split; constructor.
Qed.

(** ** Single-line fields *)

Lemma free_of_app (ch : ascii) (a b : string) :
  free_of ch a = true -> free_of ch b = true -> free_of ch (a ++ b) = true.
Proof.
  induction a as [|c a IH]; intros Ha Hb; [exact Hb|].
  cbn [append free_of] in *. apply andb_true_iff in Ha. destruct Ha as [H1 H2].
  rewrite H1, IH by assumption. reflexivity.
Qed.

Lemma free_of_tail (ch c : ascii) (s : string) :
  free_of ch (String c s) = true -> free_of ch s = true.
Proof. cbn [free_of]. intros H. apply andb_true_iff in H. apply H. Qed.

Lemma free_of_drop (ch : ascii) (n : nat) : forall s,
  free_of ch s = true -> free_of ch (drop n s) = true.
Proof.
  induction n as [|n IH]; intros s H; [exact H|].
  destruct s as [|c s]; [reflexivity|]. cbn [drop]. apply IH.
  apply (free_of_tail ch c s H).
Qed.

Lemma free_of_lstrip_by (ch : ascii) (p : ascii -> bool) (s : string) :
  free_of ch s = true -> free_of ch (lstrip_by p s) = true.
Proof.
  induction s as [|c s IH]; intros H; [reflexivity|].
  cbn [lstrip_by]. destruct (p c); [|exact H]. apply IH.
  apply (free_of_tail ch c s H).
Qed.

Lemma free_of_rstrip_by (ch : ascii) (p : ascii -> bool) (s : string) :
  free_of ch s = true -> free_of ch (rstrip_by p s) = true.
Proof.
  induction s as [|c s IH]; intros H; [reflexivity|].
  cbn [free_of] in H. apply andb_true_iff in H. destruct H as [H1 H2].
  cbn [rstrip_by]. specialize (IH H2).
  destruct (rstrip_by p s) as [|a r].
  - destruct (p c); [reflexivity|]. cbn [free_of]. rewrite H1. reflexivity.
  - cbn [free_of] in *. rewrite H1, IH. reflexivity.
Qed.

Lemma free_of_strip_by (ch : ascii) (p : ascii -> bool) (s : string) :
  free_of ch s = true -> free_of ch (strip_by p s) = true.
Proof.
  intros H. unfold strip_by. apply free_of_rstrip_by, free_of_lstrip_by, H.
Qed.

Lemma free_of_drop_last (ch : ascii) (s : string) :
  free_of ch s = true -> free_of ch (drop_last s) = true.
Proof.
  induction s as [|c s IH]; intros H; [reflexivity|].
  cbn [free_of] in H. apply andb_true_iff in H. destruct H as [H1 H2].
  cbn [drop_last]. destruct s as [|a s]; [reflexivity|].
  cbn [free_of]. rewrite H1. cbn [andb]. apply IH. exact H2.
Qed.

Lemma free_of_unquote (ch : ascii) (s : string) :
  free_of ch s = true -> free_of ch (unquote s) = true.
Proof.
  intros H. unfold unquote.
  destruct (startswith s "'" && endswith s "'"); [|exact H].
  unfold slice_1_m1. apply free_of_drop_last, free_of_drop, H.
Qed.

Lemma split_from_free (ch : ascii) (sep : string) (s : string) :
  forall b k cur,
    free_of ch cur = true -> free_of ch s = true ->
    Forall (fun x => free_of ch x = true) (split_from sep b k cur s).
Proof.
  induction s as [|c s IH]; intros b k cur Hc Hs.
  - constructor; [exact Hc|constructor].
  - pose proof (free_of_tail ch c s Hs) as Ht.
    cbn [split_from]. destruct k as [|k]; [|apply IH; assumption].
    destruct (may_split b && startswith (String c s) sep).
    + constructor; [exact Hc|]. apply IH; [reflexivity|exact Ht].
    + apply IH; [|exact Ht]. apply free_of_app; [exact Hc|].
      cbn [free_of] in *. apply andb_true_iff in Hs. destruct Hs as [-> _].
      reflexivity.
Qed.

Lemma split_lines_single (s : string) : forall cur,
  single_line cur -> Forall single_line (split_from nl None 0 cur s).
Proof.
  unfold single_line.
  induction s as [|c s IH]; intros cur Hc.
  - constructor; [exact Hc|constructor].
  - cbn [split_from may_split andb].
    change (startswith (String c s) nl) with (Ascii.eqb c (ascii_of_nat 10) && true).
    destruct (Ascii.eqb c (ascii_of_nat 10)) eqn:E; cbn [andb].
    + constructor; [exact Hc|]. apply IH. reflexivity.
    + apply IH. apply free_of_app; [exact Hc|]. cbn [free_of]. rewrite E. reflexivity.
Qed.

Lemma field_single (key s v : string) :
  single_line s -> item_at (split_max key 1 s) 1 = Done v -> single_line v.
Proof.
  unfold single_line, split_max, item_at. intros Hs H.
  destruct (nth_error _ 1) as [x|] eqn:E; [|discriminate]. injection H as <-.
  pose proof (split_from_free (ascii_of_nat 10) key s (Some 1) 0 "" eq_refl Hs) as F.
  rewrite Forall_forall in F. apply F. apply (nth_error_In _ _ E).
Qed.

Section SingleLine.

Variable lines : list string.
Hypothesis lines_single : Forall single_line lines.

Lemma line_single (i : nat) (l : string) : item_at lines i = Done l -> single_line l.
Proof.
  unfold item_at. destruct (nth_error lines i) as [x|] eqn:E; [|discriminate].
  intros H. injection H as <-.
  rewrite Forall_forall in lines_single. apply lines_single.
  apply (nth_error_In _ _ E).
Qed.

Lemma packages_loop_single fuel : forall c pkgs c' r,
  Forall single_line pkgs ->
  packages_loop lines fuel c pkgs = Done (c', r) ->
  Forall single_line r.
Proof.
  induction fuel as [|fuel IH]; intros c pkgs c' r Hf H; [discriminate|].
  cbn [packages_loop] in H.
  destruct (idx c <? length lines); [|injection H as _ <-; exact Hf].
  destruct (item_at lines (idx c)) as [l| |] eqn:El; cbn [bind] in H; try discriminate.
  destruct (startswith l "  " || is_blank l); [|injection H as _ <-; exact Hf].
  apply IH in H; [exact H|].
  destruct (startswith (strip l) "- "); [|exact Hf].
  apply Forall_app. split; [exact Hf|].
  constructor; [|constructor].
  apply free_of_strip_by, free_of_drop, free_of_strip_by, (line_single _ _ El).
Qed.

Lemma runcmd_loop_single fuel : forall c cmds c' r,
  Forall single_line cmds ->
  runcmd_loop lines fuel c cmds = Done (c', r) ->
  Forall single_line r.
Proof.
  induction fuel as [|fuel IH]; intros c cmds c' r Hf H; [discriminate|].
  cbn [runcmd_loop] in H.
  destruct (idx c <? length lines); [|injection H as _ <-; exact Hf].
  destruct (item_at lines (idx c)) as [l| |] eqn:El; cbn [bind] in H; try discriminate.
  destruct (startswith l "  " || is_blank l); [|injection H as _ <-; exact Hf].
  destruct (startswith (strip l) "# "); [apply IH in H; assumption|].
  apply IH in H; [exact H|].
  destruct (startswith (strip l) "- "); [|exact Hf].
  apply Forall_app. split; [exact Hf|].
  constructor; [|constructor].
  apply free_of_unquote, free_of_drop, free_of_strip_by, (line_single _ _ El).
Qed.

Lemma entry_loop_single fuel : forall c entry c' r,
  single_line_entry entry ->
  entry_loop lines fuel c entry = Done (c', r) ->
  single_line_entry r.
Proof.
  induction fuel as [|fuel IH]; intros c entry c' r Ht H; [discriminate|].
  cbn [entry_loop] in H.
  destruct (idx c <? length lines); [|injection H as _ <-; exact Ht].
  destruct (item_at lines (idx (tick c))) as [l| |] eqn:El; cbn [bind] in H;
    try discriminate.
  pose proof (free_of_strip_by _ isspace _ (line_single _ _ El)) as Hs.
  destruct (entry_ends l) as [[|]| |]; cbn [bind] in H; try discriminate;
    [injection H as _ <-; exact Ht|].
  destruct Ht as [T1 [T2 T3]].
  destruct (startswith (strip l) "owner:").
  { destruct (item_at _ 1) as [v| |] eqn:Ev; cbn [bind] in H; try discriminate.
    apply IH in H; [exact H|].
    repeat split; cbn [set_owner path owner permissions]; auto.
    apply free_of_strip_by, (field_single _ _ _ Hs Ev). }
  destruct (startswith (strip l) "permissions:").
  { destruct (item_at _ 1) as [v| |] eqn:Ev; cbn [bind] in H; try discriminate.
    apply IH in H; [exact H|].
    repeat split; cbn [set_permissions path owner permissions]; auto.
    apply free_of_strip_by, free_of_strip_by, (field_single _ _ _ Hs Ev). }
  destruct (startswith (strip l) "content:").
  { destruct (content_loop lines fuel _ _ _) as [[c1 cl]| |]; cbn [bind] in H;
      try discriminate.
    apply IH in H; [exact H|]. repeat split; assumption. }
  apply IH in H; [exact H|]. repeat split; assumption.
Qed.

Lemma write_files_loop_single fuel : forall c files c' r,
  Forall single_line_entry files ->
  write_files_loop lines fuel c files = Done (c', r) ->
  Forall single_line_entry r.
Proof.
  induction fuel as [|fuel IH]; intros c files c' r Hf H; [discriminate|].
  cbn [write_files_loop] in H.
  destruct (idx c <? length lines); [|injection H as _ <-; exact Hf].
  destruct (item_at lines (idx (tick c))) as [l| |] eqn:El; cbn [bind] in H;
    try discriminate.
  pose proof (free_of_strip_by _ isspace _ (line_single _ _ El)) as Hs.
  destruct (section_ends l) as [[|]| |]; cbn [bind] in H; try discriminate;
    [injection H as _ <-; exact Hf|].
  destruct ((strip l =? "")%string || startswith (strip l) "#");
    [apply IH in H; assumption|].
  destruct (startswith (strip l) "- path:"); [|apply IH in H; assumption].
  destruct (item_at _ 1) as [v| |] eqn:Ev; cbn [bind] in H; try discriminate.
  match type of H with context [entry_loop lines fuel ?c1 ?e1] =>
    destruct (entry_loop lines fuel c1 e1) as [[c1' e1']| |] eqn:Ee end;
    cbn [bind] in H; try discriminate.
  apply IH in H; [exact H|].
  apply Forall_app. split; [exact Hf|]. constructor; [|constructor].
  apply entry_loop_single in Ee; [exact Ee|].
  repeat split; cbn [path owner permissions]; try reflexivity.
  apply free_of_strip_by, (field_single _ _ _ Hs Ev).
Qed.

Lemma main_loop_single fuel : forall c s c' s',
  Forall single_line (packages s) ->
  Forall single_line_entry (write_files s) ->
  Forall single_line (runcmd s) ->
  main_loop lines fuel c s = Done (c', s') ->
  Forall single_line (packages s')
  /\ Forall single_line_entry (write_files s')
  /\ Forall single_line (runcmd s').
Proof.
  induction fuel as [|fuel IH]; intros c s c' s' Hp Hf Hr H; [discriminate|].
  cbn [main_loop] in H.
  destruct (idx c <? length lines); [|injection H as _ <-; auto].
  destruct (item_at lines (idx (tick c))) as [l| |]; cbn [bind] in H; try discriminate.
  destruct (startswith l "ssh_pwauth:"); [apply IH in H; assumption|].
  destruct (l =? "packages:")%string.
  { destruct (packages_loop lines fuel _ _) as [[c1 r]| |] eqn:E;
      cbn [bind] in H; try discriminate.
    apply IH in H; try assumption.
    apply (packages_loop_single _ _ _ _ _ Hp E). }
  destruct (l =? "write_files:")%string.
  { destruct (write_files_loop lines fuel _ _) as [[c1 r]| |] eqn:E;
      cbn [bind] in H; try discriminate.
    apply IH in H; try assumption.
    apply (write_files_loop_single _ _ _ _ _ Hf E). }
  destruct (l =? "runcmd:")%string.
  { destruct (runcmd_loop lines fuel _ _) as [[c1 r]| |] eqn:E;
      cbn [bind] in H; try discriminate.
    apply IH in H; try assumption.
    apply (runcmd_loop_single _ _ _ _ _ Hr E). }
  apply IH in H; assumption.
Qed.

End SingleLine.

(** X11. In every Config the parser returns, no package name, no
    command and no path, owner or permissions string holds a newline;
    only a content can span lines. *)
Theorem parsed_fields_are_single_lines :
  forall text : string,
    exists sections,
      parse_cloud_init text = Done sections
      /\ Forall single_line (packages sections)
      /\ Forall single_line_entry (write_files sections)
      /\ Forall single_line (runcmd sections).
Proof.
  intros text.
  destruct (scan_lines_spec (split nl text)) as [c [s [E _]]].
  exists s. unfold parse_cloud_init, scan. rewrite E. cbn [bind snd].
  split; [reflexivity|].
  apply (main_loop_single (split nl text)
           (split_lines_single text "" eq_refl)
           (S (length (split nl text))) (mkCursor 0 []) initial_sections c s);
    try constructor. exact E.
Qed.

(** ** The first line of a block literal *)

(** X12. A block literal is empty when the line after [content:] is
    blank, or does not begin with a space (text in the first column,
    or indentation by a tab): the loop over its lines stops at once,
    with nothing collected, and leaves that line to the loop over the
    fields of the entry. *)
Theorem content_needs_indented_first_line :
  forall (lines : list string) (fuel : nat) (c : cursor) (l : string),
    nth_error lines (idx c) = Some l ->
    is_blank l = true \/ startswith l " " = false ->
    content_loop lines (S fuel) c None [] = Done (tick c, []).
Proof.
  intros lines fuel c l Hl Hc.
  assert (Hlt : (idx c <? length lines) = true).
  { apply Nat.ltb_lt. apply nth_error_Some. congruence. }
  cbn [content_loop]. rewrite Hlt. cbn [idx tick]. unfold item_at. rewrite Hl.
  cbn [bind].
  assert (Hi : has_indent (detect_indent None l) l = false).
  { unfold has_indent, detect_indent.
    destruct (truthy (strip l)) eqn:T; [|reflexivity].
    destruct (String.length l - String.length (lstrip l)) as [|n]; [reflexivity|].
    destruct Hc as [Hb | Hs].
    - unfold is_blank in Hb. apply String.eqb_eq in Hb. rewrite Hb in T. discriminate.
    - destruct l as [|a r]; [reflexivity|]. cbn [spaces startswith] in *.
      rewrite andb_true_r in Hs. rewrite Hs. reflexivity. }
  rewrite Hi. cbn [andb].
  destruct (is_blank l) eqn:B; [|reflexivity].
  unfold is_blank in B. apply String.eqb_eq in B.
  unfold next_line_indented, detect_indent. rewrite B. cbn [truthy].
  destruct (S (idx (tick c)) <? length lines); reflexivity.
Qed.

(** A literal whose first line is empty, and one indented by a tab. *)
Lemma content_needs_indented_first_line_witness :
  content_loop ["    content: |"; ""; "      text"] 3 (mkCursor 1 [0]) None []
  = Done (tick (mkCursor 1 [0]), [])
  /\ content_loop ["    content: |"; String (ascii_of_nat 9) "text"] 2
                  (mkCursor 1 [0]) None []
     = Done (tick (mkCursor 1 [0]), []).
Proof.
  split.
  - apply (content_needs_indented_first_line _ 2 (mkCursor 1 [0]) "");
      [reflexivity|left; reflexivity].
  - apply (content_needs_indented_first_line _ 1 (mkCursor 1 [0])
             (String (ascii_of_nat 9) "text"));
      [reflexivity|right; reflexivity].
Defined.

(** ** The script as a program *)

(** X13. A run with no path argument prints the usage line to the error
    stream and exits with code 1.  A run with a path never fails
    inside parsing or generation: if the file cannot be read the
    failure of reading is all that happens, and if it can be read the
    script generated for the third argument, or for [ubuntu] when
    there is none, is printed followed by a newline; further
    arguments are ignored. *)
Theorem main_outcomes :
  forall (a0 : string) (read_file : string -> option string),
    main [a0] read_file
    = Done (UsageExit ("Usage: " ++ a0 ++ " cloud-init.yaml [user]" ++ nl) 1)
    /\ (forall (p : string) (more : list string),
           (read_file p = None ->
            main (a0 :: p :: more) read_file = Done ReadFailed)
           /\ (forall text, read_file p = Some text ->
                 exists sections,
                   parse_cloud_init text = Done sections
                   /\ main (a0 :: p :: more) read_file
                      = Done (Printed (generate_bash sections (hd "ubuntu" more)
                                       ++ nl)))).
Proof.
  intros a0 read_file. split; [reflexivity|].
  intros p more.
  split.
  - intros Hr. unfold main.
    destruct more; cbn [length Nat.ltb Nat.leb item_at nth_error bind];
      rewrite Hr; reflexivity.
  - intros text Hr.
    destruct (scan_lines_spec (split nl text)) as [c [s [E _]]].
    exists s.
    assert (Hp : parse_cloud_init text = Done s).
    { unfold parse_cloud_init, scan. rewrite E. reflexivity. }
    split; [exact Hp|].
    unfold main. destruct more; cbn [length Nat.ltb Nat.leb item_at nth_error bind hd];
      rewrite Hr, Hp; reflexivity.
Qed.

Lemma main_outcomes_witness :
  let fs := fun p => if (p =? "ci.yaml")%string then Some "ssh_pwauth: false" else None in
  main ["conv"; "missing.yaml"] fs = Done ReadFailed
  /\ exists sections,
       parse_cloud_init "ssh_pwauth: false" = Done sections
       /\ main ["conv"; "ci.yaml"; "deploy"; "extra"] fs
          = Done (Printed (generate_bash sections "deploy" ++ nl)).
Proof.
  intros fs.
  destruct (main_outcomes "conv" fs) as [_ H]. split.
  - apply (proj1 (H "missing.yaml" [])). reflexivity.
  - apply (proj2 (H "ci.yaml" ["deploy"; "extra"]) "ssh_pwauth: false"). reflexivity.
Defined.

(** ** The run-command section in the script *)

Lemma join_app (sep : string) (a b : list string) :
  a <> [] -> b <> [] -> join sep (a +++ b) = join sep a ++ sep ++ join sep b.
Proof.
  intros Ha Hb. induction a as [|x a IH]; [congruence|].
  destruct a as [|y a].
  - cbn [app]. rewrite join_cons by exact Hb. reflexivity.
  - change ((x :: y :: a) +++ b) with (x :: ((y :: a) +++ b)).
    rewrite join_cons by discriminate.
    rewrite IH by discriminate.
    change (join sep (x :: y :: a)) with (x ++ sep ++ join sep (y :: a)).
    rewrite !append_assoc. reflexivity.
Qed.

Lemma free_of_contains (ch : ascii) (s : string) :
  free_of ch s = true -> contains s (String ch "") = false.
Proof.
  induction s as [|c s IH]; intros H; [reflexivity|].
  cbn [free_of] in H. apply andb_true_iff in H. destruct H as [H1 H2].
  cbn [contains startswith]. rewrite (IH H2).
  apply negb_true_iff in H1. rewrite H1. reflexivity.
Qed.

Lemma split_single_line (s : string) : single_line s -> split nl s = [s].
Proof.
  intros H. unfold split.
  apply (split_from_absent nl None s "" (free_of_contains _ _ H)).
Qed.

Lemma flat_map_split_single (l : list string) :
  Forall single_line l -> flat_map (split nl) l = l.
Proof.
  induction 1 as [|x l Hx _ IH]; [reflexivity|].
  cbn [flat_map]. rewrite (split_single_line x Hx), IH. reflexivity.
Qed.

Lemma free_of_replace_from (ch : ascii) (old new : string) :
  free_of ch new = true ->
  forall s k, free_of ch s = true -> free_of ch (replace_from old new k s) = true.
Proof.
  intros Hn. induction s as [|c s IH]; intros k Hs; [reflexivity|].
  pose proof (free_of_tail ch c s Hs) as Ht.
  cbn [replace_from]. destruct k as [|k]; [|apply IH; exact Ht].
  destruct (startswith (String c s) old).
  - apply free_of_app; [exact Hn|apply IH; exact Ht].
  - cbn [free_of] in *. apply andb_true_iff in Hs. destruct Hs as [-> _].
    cbn [andb]. apply IH. exact Ht.
Qed.

Lemma free_of_intersperse (ch : ascii) (new s : string) :
  free_of ch new = true -> free_of ch s = true ->
  free_of ch (intersperse new s) = true.
Proof.
  intros Hn. induction s as [|c s IH]; intros Hs; [exact Hn|].
  cbn [intersperse]. apply free_of_app; [exact Hn|].
  cbn [free_of] in *. apply andb_true_iff in Hs. destruct Hs as [-> Hs].
  cbn [andb]. apply IH. exact Hs.
Qed.

Lemma free_of_replace (ch : ascii) (old new s : string) :
  free_of ch new = true -> free_of ch s = true ->
  free_of ch (replace old new s) = true.
Proof.
  intros Hn Hs. unfold replace. destruct old.
  - apply free_of_intersperse; assumption.
  - apply free_of_replace_from; assumption.
Qed.

Lemma home_single_line (user : string) : single_line user -> single_line (home user).
Proof.
  unfold single_line, home. intros H.
  destruct (negb (user =? "root")%string); [|reflexivity].
  apply free_of_app; [reflexivity|exact H].
Qed.

(** C5. For a user other than [ubuntu] and a non-empty [runcmd], each
    command goes through the five replacements in their order:
    [ubuntu:ubuntu] to the user twice, [/home/ubuntu] to the derived
    home ([/root] for [root], [/home/] and the user otherwise), and
    [chsh -s /usr/bin/zsh ubuntu], [chown -R ubuntu:ubuntu] and
    [su - ubuntu] with the user substituted.  The lines generated end
    with the title of the section, the commands so rewritten in the
    order of [runcmd], and an empty line; the script that
    [generate_bash] returns ends with the same, each on a line of its
    own: the text of the script is the text for the Config without
    commands, a newline, and the title, the rewritten commands and the
    empty line joined by newlines, and its lines are the lines of that
    other script followed by the title, the lines of every rewritten
    command, and the empty line.  When the user and the commands hold
    no newline, as the commands of a parsed Config do, every rewritten
    command is exactly one line of the script. *)
Theorem runcmd_rewritten_in_order :
  forall (sections : Config) (user : string),
    user <> "ubuntu" ->
    runcmd sections <> [] ->
    let rewritten :=
        map (fun cmd =>
               replace "su - ubuntu" ("su - " ++ user)
                 (replace "chown -R ubuntu:ubuntu" ("chown -R " ++ user ++ ":" ++ user)
                    (replace "chsh -s /usr/bin/zsh ubuntu" ("chsh -s /usr/bin/zsh " ++ user)
                       (replace "/home/ubuntu" (home user)
                          (replace "ubuntu:ubuntu" (user ++ ":" ++ user) cmd)))))
            (runcmd sections) in
    generate_lines sections user
    = generate_lines (set_runcmd sections []) user
      +++ "# Run commands" :: rewritten +++ [""]
    /\ generate_bash sections user
       = generate_bash (set_runcmd sections []) user
         ++ nl ++ join nl ("# Run commands" :: rewritten +++ [""])
    /\ script_lines (generate_bash sections user)
       = script_lines (generate_bash (set_runcmd sections []) user)
         +++ "# Run commands" :: flat_map (split nl) rewritten +++ [""]
    /\ (single_line user -> Forall single_line (runcmd sections) ->
        script_lines (generate_bash sections user)
        = script_lines (generate_bash (set_runcmd sections []) user)
          +++ "# Run commands" :: rewritten +++ [""])
    /\ (user = "root" -> home user = "/root")
    /\ (user <> "root" -> home user = "/home/" ++ user).
Proof.
  intros sections user Hu Hr rewritten.
  assert (Hlines : generate_lines sections user
                   = generate_lines (set_runcmd sections []) user
                     +++ "# Run commands" :: rewritten +++ [""]).
  { unfold generate_lines, runcmd_section, packages_section, ssh_section.
    cbn [set_runcmd packages write_files runcmd ssh_pwauth].
    rewrite app_nil_r, <- !app_assoc.
    do 4 f_equal.
    unfold rewritten.
    destruct (runcmd sections) as [|cmd cmds]; [congruence|].
    f_equal. f_equal. apply map_ext. intros a.
    unfold rewrite_cmd. apply String.eqb_neq in Hu. rewrite Hu. reflexivity. }
  assert (Hne : generate_lines (set_runcmd sections []) user <> []).
  { unfold generate_lines, header. discriminate. }
  assert (Hscript : script_lines (generate_bash sections user)
                    = script_lines (generate_bash (set_runcmd sections []) user)
                      +++ "# Run commands" :: flat_map (split nl) rewritten +++ [""]).
  { unfold generate_bash.
    rewrite (script_lines_join (generate_lines (set_runcmd sections []) user) Hne).
    rewrite script_lines_join by (unfold generate_lines, header; discriminate).
    rewrite Hlines, flat_map_app. f_equal.
    cbn [flat_map]. rewrite flat_map_app. reflexivity. }
  split; [exact Hlines|].
  split.
  { unfold generate_bash. rewrite Hlines.
    apply join_app; [exact Hne|discriminate]. }
  split; [exact Hscript|].
  split.
  { intros Huser Hcmds. rewrite Hscript.
    rewrite (flat_map_split_single rewritten); [reflexivity|].
    unfold rewritten.
    apply Forall_map. revert Hcmds. apply Forall_impl. intros cmd Hc.
    unfold single_line in *.
    repeat apply free_of_replace; try exact Hc;
      repeat (apply free_of_app; [try reflexivity; try exact Huser|]);
      try exact Huser; try reflexivity.
    apply (home_single_line user Huser). }
  split.
  - intros ->. reflexivity.
  - intros Hroot. unfold home. apply String.eqb_neq in Hroot. rewrite Hroot.
    reflexivity.
Qed.

(** Two commands of the user [ubuntu], generated for the user
    [deploy]. *)
Lemma runcmd_rewritten_in_order_witness :
  let sections :=
      mkConfig [] [] ["chown -R ubuntu:ubuntu /home/ubuntu"; "su - ubuntu"] true in
  generate_bash sections "deploy"
  = join nl (header +++ ["# Run commands"; "chown -R deploy:deploy /home/deploy";
                         "su - deploy"; ""])
  /\ script_lines (generate_bash sections "deploy")
     = header +++ ["# Run commands"; "chown -R deploy:deploy /home/deploy";
                   "su - deploy"; ""]
  /\ home "deploy" = "/home/deploy".
Proof.
  intros sections.
  pose proof (runcmd_rewritten_in_order sections "deploy"
                ltac:(discriminate) ltac:(discriminate)) as H.
  cbv zeta in H. destruct H as [_ [Hb [_ [Hl [_ Hh]]]]].
  split; [rewrite Hb; vm_compute; reflexivity|].
  split.
  - rewrite Hl; [vm_compute; reflexivity|reflexivity|repeat constructor].
  - apply Hh. discriminate.
Defined.
